(** * Train ledger CLI ([ind1.py]): model and checked properties

    The program keeps train departures in an SQLite file and offers three
    sub-commands ([add], [display], [select]).  This development embeds the
    five functions of [ind1.py] over a small model of the parts of the
    [sqlite3] and [argparse] modules they call, and states the properties of
    the program against that embedding.

    Layout: values and exceptions; the state-and-exception monad the
    functions run in; the SQL engine fragment (schema, name resolution,
    SELECT with one optional INNER JOIN, INSERT); the connection API;
    the program's functions; then the theorems. *)

From Stdlib Require Import ZArith Ascii String List Bool Lia.
From Stdlib Require Import Numbers.DecimalString.
From stdpp Require Import base option list strings gmap fin_maps.

Open Scope string_scope.
Open Scope list_scope.

(** ** Python values and exceptions *)

(** The values that travel between the command line, the program and the
    database: [None], [int] and [str].  A [str] is kept as its UTF-8 bytes. *)
Inductive value : Type :=
  | VNone
  | VInt (z : Z)
  | VStr (s : string).

#[global] Instance value_eq_dec : EqDecision value.
Proof. solve_decision. Defined.

(** What [argparse] writes on the error stream before it exits with
    status 2.  The wording of these messages differs between Python
    versions, so only their kind and subject are recorded. *)
Inductive parser_diagnostic : Type :=
  | InvalidChoice (token : string)
  | MissingRequired (options : list string)
  | ExpectedOneArgument (option_string : string)
  | UnrecognizedArguments (tokens : list string).

(** Exceptions the program can end with.  [OutsideModel] is not a Python
    exception: it marks a command line that uses an [argparse] feature the
    model of [parse_args] does not cover. *)
Inductive exn : Type :=
  | OperationalError (msg : string)
  | IntegrityError (msg : string)
  | AttributeError (attribute : string)
  | TypeError (msg : string)
  | IndexError (msg : string)
  | SystemExit (code : Z)
  | OutsideModel.

Inductive result (A : Type) : Type :=
  | Ok (a : A)
  | Raise (e : exn).
Arguments Ok {A} a.
Arguments Raise {A} e.

Definition rbind {A B} (r : result A) (k : A -> result B) : result B :=
  match r with
  | Ok a => k a
  | Raise e => Raise e
  end.

Notation "'let!' x := r 'in' k" := (rbind r (fun x => k))
  (at level 10, x name, r at level 100, k at level 200,
   format "'let!'  x  :=  r  'in' '//' k").

(** ** The database engine fragment *)

(** A column as [CREATE TABLE] declares it.  [col_rowid] marks an
    [INTEGER PRIMARY KEY AUTOINCREMENT] column. *)
Record column : Type := Column {
  col_name : string;
  col_type : string;
  col_notnull : bool;
  col_rowid : bool
}.

(** A table: its columns, its rows in storage order, and the largest
    row identifier handed out so far. *)
Record table : Type := Table {
  tbl_columns : list column;
  tbl_rows : list (list value);
  tbl_seq : Z
}.

(** A database file's content: its tables by name.  Identifiers are
    lower-case throughout the program, which is how they are stored here. *)
Abbreviation database := (gmap string table).

(** The observable world: the database files by path, the lines written
    to standard output, what the argument parser wrote on the error stream,
    and the working directory.  A path that is not bound holds no table,
    like a file that does not exist yet; every path is taken to name a file
    that can be opened. *)
Record world : Type := World {
  files : gmap string database;
  stdout : list string;
  stderr : list parser_diagnostic;
  cwd : string
}.

(** ** The monad of the program: world passing with exceptions *)

Definition M (A : Type) : Type := world -> result A * world.

Definition ret {A} (a : A) : M A := fun w => (Ok a, w).
Definition raise {A} (e : exn) : M A := fun w => (Raise e, w).
Definition bind {A B} (m : M A) (k : A -> M B) : M B :=
  fun w => match m w with
           | (Ok a, w') => k a w'
           | (Raise e, w') => (Raise e, w')
           end.

Declare Scope prog_scope.
Delimit Scope prog_scope with prog.
Notation "x <- m ;; k" := (bind m (fun x => k))
  (at level 100, m at next level, right associativity) : prog_scope.
Notation "m ;; k" := (bind m (fun _ => k))
  (at level 100, right associativity) : prog_scope.
Open Scope prog_scope.

Definition lift {A} (r : result A) : M A := fun w => (r, w).

(** [print(s)]: one more line on standard output. *)
Definition print (s : string) : M unit :=
  fun w => (Ok tt, World (files w) (stdout w ++ [s]) (stderr w) (cwd w)).

(** A column reference: [c] or [t.c]. *)
Inductive colref : Type :=
  | Unq (c : string)
  | Qual (t c : string).

Definition show_colref (r : colref) : string :=
  match r with
  | Unq c => c
  | Qual t c => t +:+ "." +:+ c
  end.

(** The statements of the program.  A SELECT lists result columns, reads
    one table, optionally joined to a second one on an equality of two
    columns, optionally filtered by [column = ?]; an INSERT names the
    columns that receive the bound parameters in order. *)
Record select_stmt : Type := SelectStmt {
  s_result : list colref;
  s_from : string;
  s_join : option (string * (colref * colref));
  s_where : option colref
}.

Inductive statement : Type :=
  | CreateTableIfNotExists (name : string) (cols : list column)
  | Select (s : select_stmt)
  | InsertInto (name : string) (cols : list string).

(** Position of the first column named [c]. *)
Fixpoint column_index (c : string) (cols : list column) : option nat :=
  match cols with
  | [] => None
  | col :: rest =>
      if String.eqb (col_name col) c then Some 0
      else option_map S (column_index c rest)
  end.

(** Name resolution over the tables of the FROM clause: a qualified
    reference needs its table in the clause and its column in that table; a
    bare name must belong to exactly one of the tables. *)
Fixpoint resolve_qual (t c : string) (scope : list (string * table)) (i : nat)
  : option (nat * nat) :=
  match scope with
  | [] => None
  | (name, tb) :: rest =>
      if String.eqb name t then
        match column_index c (tbl_columns tb) with
        | Some j => Some (i, j)
        | None => None
        end
      else resolve_qual t c rest (S i)
  end.

Fixpoint resolve_unq (c : string) (scope : list (string * table)) (i : nat)
  : list (nat * nat) :=
  match scope with
  | [] => []
  | (_, tb) :: rest =>
      match column_index c (tbl_columns tb) with
      | Some j => (i, j) :: resolve_unq c rest (S i)
      | None => resolve_unq c rest (S i)
      end
  end.

Definition resolve (scope : list (string * table)) (r : colref)
  : result (nat * nat) :=
  match r with
  | Qual t c =>
      match resolve_qual t c scope 0 with
      | Some p => Ok p
      | None => Raise (OperationalError ("no such column: " +:+ show_colref r))
      end
  | Unq c =>
      match resolve_unq c scope 0 with
      | [] => Raise (OperationalError ("no such column: " +:+ c))
      | [p] => Ok p
      | _ => Raise (OperationalError ("ambiguous column name: " +:+ c))
      end
  end.

Fixpoint resolve_all (scope : list (string * table)) (rs : list colref)
  : result (list (nat * nat)) :=
  match rs with
  | [] => Ok []
  | r :: rest =>
      let! p := resolve scope r in
      let! ps := resolve_all scope rest in
      Ok (p :: ps)
  end.

Definition find_table (db : database) (name : string) : result table :=
  match db !! name with
  | Some tb => Ok tb
  | None => Raise (OperationalError ("no such table: " +:+ name))
  end.

(** SQL equality: never true on NULL; values are compared as bound and as
    stored (conversions by column type are not modelled). *)
Definition sql_eq (a b : value) : bool :=
  match a, b with
  | VInt x, VInt y => Z.eqb x y
  | VStr x, VStr y => String.eqb x y
  | _, _ => false
  end.

(** The value a resolved reference denotes in a joined row. *)
Definition fetch (env : list (list value)) (p : nat * nat) : value :=
  default VNone (r ← env !! p.1; r !! p.2).

(** Rows of a SELECT: the nested loop over the FROM tables in the order
    written, the ON and WHERE equalities as filters, then the projection
    onto the result columns. *)
Definition joined_rows (scope : list (string * table)) : list (list (list value)) :=
  match scope with
  | [] => []
  | [(_, t1)] => map (fun r1 => [r1]) (tbl_rows t1)
  | (_, t1) :: (_, t2) :: _ =>
      flat_map (fun r1 => map (fun r2 => [r1; r2]) (tbl_rows t2)) (tbl_rows t1)
  end.

(** The tables a SELECT reads, in the order of its FROM clause; each must
    exist. *)
Definition select_scope (s : select_stmt) (db : database)
  : result (list (string * table)) :=
  let! t1 := find_table db (s_from s) in
  match s_join s with
  | None => Ok [(s_from s, t1)]
  | Some (name, _) =>
      let! t2 := find_table db name in
      Ok [(s_from s, t1); (name, t2)]
  end.

Definition on_columns (s : select_stmt) : list colref :=
  match s_join s with
  | Some (_, (l, r)) => [l; r]
  | None => []
  end.

Definition exec_select (s : select_stmt) (params : list value) (db : database)
  : result (list (list value)) :=
  let! scope := select_scope s db in
  let! out := resolve_all scope (s_result s) in
  let! wh := resolve_all scope (option_list (s_where s)) in
  let! on := resolve_all scope (on_columns s) in
  let keep env :=
    forallb (fun p => sql_eq (fetch env p) (default VNone (params !! 0%nat))) wh
    && match on with
       | [l; r] => sql_eq (fetch env l) (fetch env r)
       | _ => true
       end in
  Ok (map (fun env => map (fetch env) out)
          (filter (fun env => keep env = true) (joined_rows scope))).

(** The value an INSERT binds to column [c]: the parameter at the position
    of [c] in the column list, NULL when [c] is not listed. *)
Fixpoint bound_value (c : string) (cols : list string) (params : list value)
  : value :=
  match cols, params with
  | c' :: cols', v :: params' =>
      if String.eqb c' c then v else bound_value c cols' params'
  | _, _ => VNone
  end.

Definition rowid_column (tb : table) : option (nat * column) :=
  list_find (fun col => col_rowid col = true) (tbl_columns tb).

(** The row identifiers in use, read off the identifier column. *)
Definition rowids (tb : table) : list value :=
  match rowid_column tb with
  | Some (j, _) => map (fun r => default VNone (r !! j)) (tbl_rows tb)
  | None => []
  end.

(** The identifier of the row an INSERT adds: a bound integer if that
    identifier is free, the next one when nothing (or NULL) is bound. *)
Definition new_rowid (tname : string) (tb : table) (cols : list string)
    (params : list value) : result Z :=
  match rowid_column tb with
  | Some (_, d) =>
      match bound_value (col_name d) cols params with
      | VNone => Ok (tbl_seq tb + 1)%Z
      | VInt z =>
          if bool_decide (VInt z ∈ rowids tb)
          then Raise (IntegrityError
                 ("UNIQUE constraint failed: " +:+ tname +:+ "." +:+ col_name d))
          else Ok z
      | VStr _ => Raise (IntegrityError "datatype mismatch")
      end
  | None => Ok (tbl_seq tb + 1)%Z
  end.

(** One stored row, column by column; a NOT NULL column refuses NULL. *)
Fixpoint build_row (tname : string) (rowid : Z)
    (cols : list string) (params : list value) (defs : list column)
  : result (list value) :=
  match defs with
  | [] => Ok []
  | d :: rest =>
      let v := bound_value (col_name d) cols params in
      let! x :=
        (if col_rowid d then Ok (VInt rowid)
         else if col_notnull d && bool_decide (v = VNone)
              then Raise (IntegrityError
                     ("NOT NULL constraint failed: " +:+ tname +:+ "." +:+ col_name d))
              else Ok v) in
      let! xs := build_row tname rowid cols params rest in
      Ok (x :: xs)
  end.

Definition exec_insert (tname : string) (cols : list string)
    (params : list value) (db : database) : result (database * Z) :=
  let! tb := find_table db tname in
  match list_find (fun c => column_index c (tbl_columns tb) = None) cols with
  | Some (_, c) =>
      Raise (OperationalError ("table " +:+ tname +:+ " has no column named " +:+ c))
  | None =>
      let! rowid := new_rowid tname tb cols params in
      let! row := build_row tname rowid cols params (tbl_columns tb) in
      Ok (<[tname := Table (tbl_columns tb) (tbl_rows tb ++ [row])
                           (Z.max (tbl_seq tb) rowid)]> db,
          rowid)
  end.

(** [CREATE TABLE IF NOT EXISTS]: a table of that name is left as it is. *)
Definition exec_create (tname : string) (cols : list column) (db : database)
  : database :=
  match db !! tname with
  | Some _ => db
  | None => <[tname := Table cols [] 0]> db
  end.

(** ** The [sqlite3] connection API *)

(** A connection holds the content it read from its file and the changes
    made through it; [conn_in_transaction] tells whether an INSERT has
    opened a transaction that is not committed yet. *)
Record connection : Type := Connection {
  conn_path : string;
  conn_db : database;
  conn_in_transaction : bool
}.

(** What a cursor holds after [execute]: the rows still to fetch and
    [lastrowid]. *)
Record cursor : Type := Cursor {
  cur_rows : list (list value);
  cur_lastrowid : value
}.

Definition connect (database_path : string) : M connection :=
  fun w => (Ok (Connection database_path
                  (default ∅ (files w !! database_path)) false), w).

Definition write_file (path : string) (db : database) : M unit :=
  fun w => (Ok tt, World (<[path := db]> (files w)) (stdout w) (stderr w) (cwd w)).

(** [cursor.execute(sql, params)].  A SELECT leaves the database alone.
    An INSERT opens a transaction: its effect stays in the connection
    until [commit].  CREATE TABLE outside a transaction takes effect in
    the file at once. *)
Definition execute (conn : connection) (sql : statement) (params : list value)
  : M (connection * cursor) :=
  match sql with
  | Select s =>
      rows <- lift (exec_select s params (conn_db conn)) ;;
      ret (conn, Cursor rows VNone)
  | InsertInto tname cols =>
      r <- lift (exec_insert tname cols params (conn_db conn)) ;;
      ret (Connection (conn_path conn) r.1 true, Cursor [] (VInt r.2))
  | CreateTableIfNotExists tname cols =>
      let db := exec_create tname cols (conn_db conn) in
      (if conn_in_transaction conn then ret tt
       else write_file (conn_path conn) db) ;;
      ret (Connection (conn_path conn) db (conn_in_transaction conn),
           Cursor [] VNone)
  end.

Definition fetchone (cur : cursor) : option (list value) := head (cur_rows cur).
Definition fetchall (cur : cursor) : list (list value) := cur_rows cur.

Definition commit (conn : connection) : M connection :=
  write_file (conn_path conn) (conn_db conn) ;;
  ret (Connection (conn_path conn) (conn_db conn) false).

(** Closing drops whatever was not committed. *)
Definition close (conn : connection) : M unit := ret tt.

(** ** Python strings and [str.format] *)

(** ['-' * 4]. *)
Fixpoint times (s : string) (n : nat) : string :=
  match n with
  | O => ""
  | S n' => s +:+ times s n'
  end.

(** [len(s)] counts code points: every byte of the UTF-8 form except the
    continuation bytes [10xxxxxx]. *)
Definition is_continuation (a : ascii) : bool :=
  let n := nat_of_ascii a in (128 <=? n)%nat && (n <? 192)%nat.

Fixpoint py_len (s : string) : nat :=
  match s with
  | EmptyString => 0
  | String a rest => (if is_continuation a then 0 else 1) + py_len rest
  end.

(** [str(z)] for an [int]. *)
Definition str_of_int (z : Z) : string := NilZero.string_of_int (Z.to_int z).

Inductive align : Type := AlignLeft | AlignRight | AlignCenter.

(** Padding to a minimum width with spaces, as the format specifications
    [<w], [>w] and [^w] do; a longer text is left whole. *)
Definition pad (a : align) (width : nat) (s : string) : string :=
  let n := width - py_len s in
  match a with
  | AlignLeft => s +:+ times " " n
  | AlignRight => times " " n +:+ s
  | AlignCenter => times " " (n / 2) +:+ s +:+ times " " (n - n / 2)
  end.

(** [format(v, spec)]: [None] accepts the empty specification only. *)
Definition format_value (spec : option (align * nat)) (v : value) : result string :=
  match spec, v with
  | None, VNone => Ok "None"
  | None, VInt z => Ok (str_of_int z)
  | None, VStr s => Ok s
  | Some (a, w), VInt z => Ok (pad a w (str_of_int z))
  | Some (a, w), VStr s => Ok (pad a w s)
  | Some _, VNone =>
      Raise (TypeError "unsupported format string passed to NoneType.__format__")
  end.

(** A format string, cut at its replacement fields. *)
Inductive piece : Type :=
  | Lit (s : string)
  | Field (spec : option (align * nat)).

Fixpoint format (template : list piece) (args : list value) : result string :=
  match template with
  | [] => Ok ""
  | Lit s :: template' =>
      let! rest := format template' args in
      Ok (s +:+ rest)
  | Field spec :: template' =>
      match args with
      | [] => Raise (IndexError "Replacement index out of range")
      | v :: args' =>
          let! text := format_value spec v in
          let! rest := format template' args' in
          Ok (text +:+ rest)
      end
  end.

(** [d.get(key, default)] on a dictionary. *)
Definition get (d : gmap string value) (key : string) (dflt : value) : value :=
  default dflt (d !! key).

(** [row[i]] on a tuple. *)
Definition item (row : list value) (i : nat) : M value :=
  match row !! i with
  | Some v => ret v
  | None => raise (IndexError "tuple index out of range")
  end.

(** [for idx, x in enumerate(xs, start): body]. *)
Fixpoint for_enumerate {A} (xs : list A) (start : Z) (body : Z -> A -> M unit)
  : M unit :=
  match xs with
  | [] => ret tt
  | x :: xs' => body start x ;; for_enumerate xs' (start + 1)%Z body
  end.

(** [[f(x) for x in xs]]. *)
Fixpoint for_each {A B} (xs : list A) (f : A -> M B) : M (list B) :=
  match xs with
  | [] => ret []
  | x :: xs' => y <- f x ;; ys <- for_each xs' f ;; ret (y :: ys)
  end.

(** ** The program *)

(** *** [display_trains] *)

Definition line_template : list piece :=
  [Lit "+-"; Field None; Lit "-+-"; Field None; Lit "-+-"; Field None;
   Lit "-+-"; Field None; Lit "-+"].

Definition header_template : list piece :=
  [Lit "| "; Field (Some (AlignCenter, 4)); Lit " | ";
   Field (Some (AlignCenter, 30)); Lit " | ";
   Field (Some (AlignCenter, 20)); Lit " | ";
   Field (Some (AlignCenter, 20)); Lit " |"].

Definition row_template : list piece :=
  [Lit "| "; Field (Some (AlignRight, 4)); Lit " | ";
   Field (Some (AlignLeft, 30)); Lit " | ";
   Field (Some (AlignLeft, 20)); Lit " |  ";
   Field (Some (AlignLeft, 20)); Lit " |"].

Definition header_titles : list value :=
  [VStr "№"; VStr "Пункт назначиния"; VStr "Номер поезда";
   VStr "время отправления"].

Definition display_trains (trains : list (gmap string value)) : M unit :=
  match trains with
  | [] => ret tt
  | _ :: _ =>
      line <- lift (format line_template
                      [VStr (times "-" 4); VStr (times "-" 30);
                       VStr (times "-" 20); VStr (times "-" 20)]) ;;
      print line ;;
      header <- lift (format header_template header_titles) ;;
      print header ;;
      print line ;;
      for_enumerate trains 1 (fun idx train =>
        row <- lift (format row_template
                       [VInt idx;
                        get train "punkt_nazn" (VStr "");
                        get train "nomer" (VStr "");
                        get train "time" (VStr "")]) ;;
        print row) ;;
      print line
  end.

(** *** [create_db] *)

(** [CREATE TABLE IF NOT EXISTS groups (train_id INTEGER PRIMARY KEY
    AUTOINCREMENT, train_title TEXT NOT NULL)]. *)
Definition groups_columns : list column :=
  [Column "train_id" "INTEGER" false true;
   Column "train_title" "TEXT" true false].

Definition sql_create_groups : statement :=
  CreateTableIfNotExists "groups" groups_columns.

(** [CREATE TABLE IF NOT EXISTS students (train_id INTEGER PRIMARY KEY
    AUTOINCREMENT, train_punkt TEXT NOT NULL, train_nomer INTEGER NOT NULL,
    train_time LIST NOT NULL, FOREIGN KEY(train_id) REFERENCES
    groups(train_id))].  SQLite does not enforce the foreign key unless a
    connection asks for it, which the program never does. *)
Definition students_columns : list column :=
  [Column "train_id" "INTEGER" false true;
   Column "train_punkt" "TEXT" true false;
   Column "train_nomer" "INTEGER" true false;
   Column "train_time" "LIST" true false].

Definition sql_create_students : statement :=
  CreateTableIfNotExists "students" students_columns.

Definition create_db (database_path : string) : M unit :=
  conn <- connect database_path ;;
  r <- execute conn sql_create_groups [] ;;
  r <- execute r.1 sql_create_students [] ;;
  close r.1.

(** *** [add_train] *)

(** [SELECT train_nomer FROM trains WHERE group_title = ?]. *)
Definition sql_find_group : statement :=
  Select (SelectStmt [Unq "train_nomer"] "trains" None (Some (Unq "group_title"))).

(** [INSERT INTO groups (group_title) VALUES (?)]. *)
Definition sql_insert_group : statement :=
  InsertInto "groups" ["group_title"].

(** [INSERT INTO trains (train_punkt, train_nomer, train_time)
    VALUES (?, ?, ?)]. *)
Definition sql_insert_train : statement :=
  InsertInto "trains" ["train_punkt"; "train_nomer"; "train_time"].

Definition add_train (database_path : string) (punkt_nazn nomer time : value)
  : M unit :=
  conn <- connect database_path ;;
  r <- execute conn sql_find_group [nomer] ;;
  let row := fetchone r.2 in
  g <- match row with
       | None =>
           r <- execute r.1 sql_insert_group [nomer] ;;
           ret (r.1, cur_lastrowid r.2)
       | Some row =>
           group_id <- item row 0 ;;
           ret (r.1, group_id)
       end ;;
  r <- execute g.1 sql_insert_train [punkt_nazn; nomer; time] ;;
  conn <- commit r.1 ;;
  close conn.

(** *** [select_all] and [select_by_num] *)

(** [SELECT trains.trains_punkt, groups.group_title, trains.train_nomer
    FROM trains INNER JOIN groups
    ON groups.trains_nomer = trains.trains_nomer]. *)
Definition sql_select_all : statement :=
  Select (SelectStmt
    [Qual "trains" "trains_punkt"; Qual "groups" "group_title";
     Qual "trains" "train_nomer"]
    "trains"
    (Some ("groups", (Qual "groups" "trains_nomer", Qual "trains" "trains_nomer")))
    None).

(** [SELECT trains.train_punkt, groups.group_title, trains.train_nomer
    FROM trains INNER JOIN groups
    ON groups.train_nomer = students.train_nomer
    WHERE groups.group_title = ?]. *)
Definition sql_select_by_num : statement :=
  Select (SelectStmt
    [Qual "trains" "train_punkt"; Qual "groups" "group_title";
     Qual "trains" "train_nomer"]
    "trains"
    (Some ("groups", (Qual "groups" "train_nomer", Qual "students" "train_nomer")))
    (Some (Qual "groups" "group_title"))).

(** The dictionary both readers build from a fetched row. *)
Definition row_dict (row : list value) : M (gmap string value) :=
  punkt_nazn <- item row 0 ;;
  nomer <- item row 1 ;;
  time <- item row 2 ;;
  ret (<["time" := time]> (<["nomer" := nomer]> (<["punkt_nazn" := punkt_nazn]> ∅))).

Definition select_all (database_path : string) : M (list (gmap string value)) :=
  conn <- connect database_path ;;
  r <- execute conn sql_select_all [] ;;
  let rows := fetchall r.2 in
  close r.1 ;;
  for_each rows row_dict.

Definition select_by_num (database_path : string) (nomer : value)
  : M (list (gmap string value)) :=
  conn <- connect database_path ;;
  r <- execute conn sql_select_by_num [nomer] ;;
  let rows := fetchall r.2 in
  close r.1 ;;
  for_each rows row_dict.

(** *** [main]: the argument parser *)

(** An option of a sub-command as [add_argument] declares it. *)
Record argument : Type := Argument {
  option_strings : list string;
  dest : string;
  is_int : bool;
  required : bool;
  default_value : value
}.

(** [str(Path.cwd() / "trains.db")]. *)
Definition default_db (w : world) : string :=
  if String.eqb (cwd w) "/" then "/trains.db" else cwd w +:+ "/trains.db".

Definition file_parser (w : world) : list argument :=
  [Argument ["--db"] "db" false false (VStr (default_db w))].

Definition add_parser (w : world) : list argument :=
  file_parser w ++
  [Argument ["-p"; "--punkt"] "punkt" false true VNone;
   Argument ["-n"; "--nomer"] "nomer" true false VNone;
   Argument ["-t"; "--time"] "time" true true VNone].

Definition display_parser (w : world) : list argument := file_parser w.

Definition select_parser (w : world) : list argument :=
  file_parser w ++ [Argument ["-s"; "--select"] "select" false true VNone].

Definition subparsers (w : world) : list (string * list argument) :=
  [("add", add_parser w); ("display", display_parser w);
   ("select", select_parser w)].

Definition starts_with_dash (s : string) : bool := String.prefix "-" s.

(** The sub-command parser registered under [tok], if any. *)
Fixpoint find_subparser (tok : string) (subs : list (string * list argument))
  : option (string * list argument) :=
  match subs with
  | [] => None
  | (name, spec) :: rest =>
      if String.eqb name tok then Some (name, spec)
      else find_subparser tok rest
  end.

Fixpoint find_argument (tok : string) (spec : list argument) : option argument :=
  match spec with
  | [] => None
  | a :: rest =>
      if bool_decide (tok ∈ option_strings a) then Some a
      else find_argument tok rest
  end.

(** The value an option stores: the token itself, or [int(token)] under
    [type=int].  Only plain decimal digits are converted here. *)
Definition convert (a : argument) (tok : string) : result value :=
  if is_int a then
    match NilZero.uint_of_string tok with
    | Some n => Ok (VInt (Z.of_uint n))
    | None => Raise OutsideModel
    end
  else Ok (VStr tok).

(** The options of a sub-command, read left to right.  The fragment of
    [argparse] covered here is: each option written with one of its
    declared strings and followed by its value as the next token, a value
    not beginning with a dash.  Anything else (abbreviated options,
    [--opt=value], [-h], stray positionals, ...) is [OutsideModel].
    A later occurrence of an option replaces an earlier one. *)
Fixpoint parse_options (spec : list argument) (tokens : list string)
    (ns : gmap string value) (seen : list string)
  : result (gmap string value * list string) :=
  match tokens with
  | [] => Ok (ns, seen)
  | [_] => Raise OutsideModel
  | tok :: v :: rest =>
      match find_argument tok spec with
      | None => Raise OutsideModel
      | Some a =>
          if starts_with_dash v then Raise OutsideModel
          else
            let! x := convert a v in
            parse_options spec rest (<[dest a := x]> ns) (dest a :: seen)
      end
  end.

Definition defaults (spec : list argument) (ns : gmap string value)
  : gmap string value :=
  foldl (fun ns a => <[dest a := default_value a]> ns) ns spec.

Definition missing (spec : list argument) (seen : list string) : list string :=
  map (fun a => String.concat "/" (option_strings a))
      (filter (fun a => required a = true ∧ dest a ∉ seen) spec).

(** The parser stops the process with status 2 after a diagnostic. *)
Definition parser_error {A} (d : parser_diagnostic) : M A :=
  fun w => (Raise (SystemExit 2),
            World (files w) (stdout w) (stderr w ++ [d]) (cwd w)).

(** [parser.parse_args(command_line)] for the parser [main] builds.  With
    no token the namespace holds [command=None] only: [--db] belongs to the
    sub-commands.  The single token [--version] prints the version and
    stops with status 0; any other command line whose first token begins
    with a dash is [OutsideModel].  A first token without a leading dash
    must name a sub-command, whose parser reads the rest. *)
Definition parse_args (command_line : list string) : M (gmap string value) :=
  match command_line with
  | [] => ret (<["command" := VNone]> ∅)
  | tok :: rest =>
      if bool_decide (command_line = ["--version"]) then
        print "trains 0.1.0" ;; raise (SystemExit 0)
      else if starts_with_dash tok then raise OutsideModel
      else
        fun w =>
          match find_subparser tok (subparsers w) with
          | None => parser_error (InvalidChoice tok) w
          | Some (name, spec) =>
              match parse_options spec rest
                      (defaults spec (<["command" := VStr name]> ∅)) [] with
              | Raise e => raise e w
              | Ok (ns, seen) =>
                  match missing spec seen with
                  | [] => ret ns w
                  | opts => parser_error (MissingRequired opts) w
                  end
              end
          end
  end.

(** [args.name]. *)
Definition getattr (args : gmap string value) (name : string) : M value :=
  match args !! name with
  | Some v => ret v
  | None => raise (AttributeError name)
  end.

(** [Path(v)]: the path a string names. *)
Definition Path (v : value) : M string :=
  match v with
  | VStr s => ret s
  | _ => raise (TypeError "expected str, bytes or os.PathLike object")
  end.

Definition main (command_line : list string) : M unit :=
  args <- parse_args command_line ;;
  db <- getattr args "db" ;;
  db_path <- Path db ;;
  create_db db_path ;;
  command <- getattr args "command" ;;
  if bool_decide (command = VStr "add") then
    punkt_nazn <- getattr args "punkt_nazn" ;;
    nomer <- getattr args "nomer" ;;
    time <- getattr args "time" ;;
    add_train db_path punkt_nazn nomer time
  else if bool_decide (command = VStr "display") then
    trains <- select_all db_path ;;
    display_trains trains
  else if bool_decide (command = VStr "select") then
    select <- getattr args "select" ;;
    trains <- select_by_num db_path select ;;
    display_trains trains
  else ret tt.

(** The status the process ends with: 0 when [main] returns, the code of
    a [SystemExit], 1 when any other exception reaches the top level. *)
Definition exit_status (r : result unit) : option Z :=
  match r with
  | Ok _ => Some 0%Z
  | Raise (SystemExit code) => Some code
  | Raise OutsideModel => None
  | Raise _ => Some 1%Z
  end.

(** * Properties *)

(** ** Vocabulary of the statements *)

(** The tables stored in the file at [path]. *)
Definition db_at (w : world) (path : string) : database :=
  default ∅ (files w !! path).

(** The content of a file once both CREATE TABLE statements of
    [create_db] have run on it. *)
Definition with_schema (db : database) : database :=
  exec_create "students" students_columns (exec_create "groups" groups_columns db).

(** A world in which the program has not run yet: no database file, no
    output. *)
Definition fresh_world : world := World ∅ [] [] "/home/user".

(** The claim about a command line without a known sub-command: [main]
    initialises the schema of the database at [path], does nothing else,
    writes nothing on either stream and the process ends with status 0. *)
Definition exits_silently_after_init (path : string) (w : world)
    (run : result unit * world) : Prop :=
  exit_status run.1 = Some 0%Z ∧
  run.2 = (create_db path w).2.

(** What a namespace of a sub-command always holds: the name of the
    sub-command under [command], a string under [db], and nothing under
    [punkt_nazn]. *)
Definition subcommand_namespace (name : string) (ns : gmap string value) : Prop :=
  ns !! "command" = Some (VStr name) ∧
  (∃ path, ns !! "db" = Some (VStr path)) ∧
  ns !! "punkt_nazn" = None.

(** The cell of a stored row at a column position. *)
Definition cell (row : list value) (j : nat) : value := default VNone (row !! j).

(** A database file made by other means, on which the query of
    [select_all] compiles: [trains] and [groups] carry the columns the
    query names.  One train (to Moscow, number 42, leaving at 800) is
    joined to one group (titled 5) through the key 7. *)
Definition foreign_db : database :=
  <["groups" := Table [Column "group_title" "INTEGER" false false;
                       Column "trains_nomer" "INTEGER" false false]
                      [[VInt 5; VInt 7]] 1]>
  (<["trains" := Table [Column "trains_punkt" "TEXT" false false;
                        Column "train_nomer" "INTEGER" false false;
                        Column "trains_nomer" "INTEGER" false false;
                        Column "train_time" "INTEGER" false false]
                       [[VStr "Moscow"; VInt 42; VInt 7; VInt 800]] 1]> ∅).

Definition foreign_world : world :=
  World (<["old.db" := foreign_db]> ∅) [] [] "/home/user".

(** The text of a value in a table cell. *)
Definition text_of (v : value) : string :=
  match v with
  | VNone => "None"
  | VInt z => str_of_int z
  | VStr s => s
  end.

(** The three kinds of line of the rendered table: the border, the header
    with the four column titles (index, destination, train number,
    departure time), and the row of a record under its index. *)
Definition border : string :=
  "+------+--------------------------------+----------------------+----------------------+".

Definition header : string :=
  "|  №   |        Пункт назначиния        |     Номер поезда     |  время отправления   |".

Definition data_row (idx : Z) (train : gmap string value) : string :=
  "| " +:+ pad AlignRight 4 (str_of_int idx) +:+
  " | " +:+ pad AlignLeft 30 (text_of (get train "punkt_nazn" (VStr ""))) +:+
  " | " +:+ pad AlignLeft 20 (text_of (get train "nomer" (VStr ""))) +:+
  " |  " +:+ pad AlignLeft 20 (text_of (get train "time" (VStr ""))) +:+
  " |".

(** The whole table for a sequence of records: nothing for no record,
    else border, header, border, one row per record in the order given and
    numbered from 1, border. *)
Definition table_lines (trains : list (gmap string value)) : list string :=
  match trains with
  | [] => []
  | _ :: _ =>
      [border; header; border] ++
      imap (fun i train => data_row (Z.of_nat (S i)) train) trains ++
      [border]
  end.

(** A record as the data model has it: destination, number and time, where
    present, are text or integers, never [None]. *)
Definition is_record (train : gmap string value) : Prop :=
  train !! "punkt_nazn" ≠ Some VNone ∧
  train !! "nomer" ≠ Some VNone ∧
  train !! "time" ≠ Some VNone.

(** Two records for the examples. *)
Definition moscow_42 : gmap string value :=
  <["time" := VInt 800]> (<["nomer" := VInt 42]> (<["punkt_nazn" := VStr "Moscow"]> ∅)).

Definition kyiv_7 : gmap string value :=
  <["time" := VInt 1230]> (<["nomer" := VInt 7]> (<["punkt_nazn" := VStr "Київ"]> ∅)).

(** A database file made by other means whose tables carry the names the
    writer uses: [add_train] runs to its end on it. *)
Definition ledger_db : database :=
  <["groups" := Table [Column "group_title" "INTEGER" false false] [] 0]>
  (<["trains" := Table [Column "train_punkt" "TEXT" false false;
                        Column "train_nomer" "INTEGER" false false;
                        Column "train_time" "INTEGER" false false;
                        Column "group_title" "INTEGER" false false]
                       [] 0]> ∅).

Definition ledger_world : world :=
  World (<["ledger.db" := ledger_db]> ∅) [] [] "/home/user".



(** A dictionary whose number is [None]. *)
Definition unnumbered : gmap string value :=
  <["time" := VInt 915]> (<["nomer" := VNone]> (<["punkt_nazn" := VStr "Lviv"]> ∅)).

(** ** Schema initialisation *)

Lemma exec_create_lookup_same tname cols (db : database) :
  is_Some (exec_create tname cols db !! tname).
Proof.
  unfold exec_create. destruct (db !! tname) as [tb|] eqn:E.
  - rewrite E. eauto.
  - rewrite lookup_insert_eq. eauto.
Qed.

Lemma exec_create_lookup_ne tname cols (db : database) other :
  tname ≠ other → exec_create tname cols db !! other = db !! other.
Proof.
  intros Hne. unfold exec_create. destruct (db !! tname); [done|].
  by rewrite lookup_insert_ne.
Qed.

Lemma exec_create_present tname cols (db : database) :
  is_Some (db !! tname) → exec_create tname cols db = db.
Proof. intros [tb E]. unfold exec_create. by rewrite E. Qed.

Lemma with_schema_idempotent (db : database) :
  with_schema (with_schema db) = with_schema db.
Proof.
  unfold with_schema.
  rewrite (exec_create_present "groups").
  - apply exec_create_present, exec_create_lookup_same.
  - rewrite exec_create_lookup_ne by done. apply exec_create_lookup_same.
Qed.

Lemma with_schema_no_trains (db : database) :
  db !! "trains" = None → with_schema db !! "trains" = None.
Proof.
  intros H. unfold with_schema. by rewrite !exec_create_lookup_ne.
Qed.

(** What [create_db] does to the world: it always succeeds, and the file
    at the path holds its former tables plus the missing ones of the two. *)
Lemma create_db_run database_path w :
  create_db database_path w =
  (Ok tt, World (<[database_path := with_schema (db_at w database_path)]> (files w))
                (stdout w) (stderr w) (cwd w)).
Proof.
  unfold create_db, bind, connect, execute, sql_create_groups,
    sql_create_students, close, ret, write_file, with_schema, db_at; simpl.
  by rewrite insert_insert_eq.
Qed.

Lemma db_at_create_db database_path w :
  db_at (create_db database_path w).2 database_path =
  with_schema (db_at w database_path).
Proof.
  rewrite create_db_run. unfold db_at; simpl. by rewrite lookup_insert_eq.
Qed.

(** C8 — [create_db] is idempotent: on any database file, in any state,
    the call succeeds, and a second call in succession succeeds too
    and leaves exactly the world the first call produced: the same tables
    with the same columns and rows, none of them twice. *)
Theorem create_db_idempotent (database_path : string) (w : world) :
  (create_db database_path w).1 = Ok tt ∧
  create_db database_path (create_db database_path w).2 =
    (Ok tt, (create_db database_path w).2).
Proof.
  split; [by rewrite create_db_run|].
  rewrite (create_db_run database_path (create_db database_path w).2).
  rewrite db_at_create_db. rewrite create_db_run; simpl.
  rewrite with_schema_idempotent. by rewrite insert_insert_eq.
Qed.

(** ** The readers *)

(** Building the dictionaries touches nothing. *)
Lemma for_each_row_dict_world rows w :
  (for_each rows row_dict w).2 = w.
Proof.
  induction rows as [|row rows IH]; [done|].
  simpl. unfold bind at 1.
  assert (Hrow : (row_dict row w).2 = w).
  { unfold row_dict, bind, item, ret, raise.
    by repeat (match goal with |- context [?r !! ?i] => destruct (r !! i) end; simpl). }
  destruct (row_dict row w) as [[d|e] w1]; simpl in Hrow; subst w1; [|done].
  unfold bind. destruct (for_each rows row_dict w) as [[ds|e] w2];
    simpl in IH; by subst w2.
Qed.

(** A reader runs one SELECT on the content of the file and builds its
    dictionaries from the rows. *)
Lemma run_query database_path s params w :
  (conn <- connect database_path ;;
   r <- execute conn (Select s) params ;;
   let rows := fetchall r.2 in
   close r.1 ;;
   for_each rows row_dict) w =
  match exec_select s params (db_at w database_path) with
  | Ok rows => for_each rows row_dict w
  | Raise e => (Raise e, w)
  end.
Proof.
  unfold bind, connect, execute, lift, close, ret, fetchall, db_at; simpl.
  by destruct (exec_select _ _ _).
Qed.

Lemma select_all_run database_path w :
  select_all database_path w =
  match exec_select
          (SelectStmt
             [Qual "trains" "trains_punkt"; Qual "groups" "group_title";
              Qual "trains" "train_nomer"]
             "trains"
             (Some ("groups",
                    (Qual "groups" "trains_nomer", Qual "trains" "trains_nomer")))
             None)
          [] (db_at w database_path) with
  | Ok rows => for_each rows row_dict w
  | Raise e => (Raise e, w)
  end.
Proof. apply run_query. Qed.

Lemma select_by_num_run database_path nomer w :
  select_by_num database_path nomer w =
  match exec_select
          (SelectStmt
             [Qual "trains" "train_punkt"; Qual "groups" "group_title";
              Qual "trains" "train_nomer"]
             "trains"
             (Some ("groups",
                    (Qual "groups" "train_nomer", Qual "students" "train_nomer")))
             (Some (Qual "groups" "group_title")))
          [nomer] (db_at w database_path) with
  | Ok rows => for_each rows row_dict w
  | Raise e => (Raise e, w)
  end.
Proof. apply run_query. Qed.

(** C10 — the readers never change the database: whatever [select_all]
    and [select_by_num] return or raise, the world after the call (every
    file with its tables and rows, and the output written so far) is the
    world before it. *)
Theorem readers_do_not_mutate (database_path : string) (nomer : value) (w : world) :
  (select_all database_path w).2 = w ∧
  (select_by_num database_path nomer w).2 = w.
Proof.
  rewrite select_all_run, select_by_num_run.
  split; destruct (exec_select _ _ _); simpl; auto using for_each_row_dict_world.
Qed.

(** Name resolution fails with an [OperationalError] only. *)
Lemma resolve_raises scope r e :
  resolve scope r = Raise e → ∃ msg, e = OperationalError msg.
Proof.
  unfold resolve. destruct r as [c|t c].
  - destruct (resolve_unq c scope 0) as [|p [|q l]]; intros [= <-]; eauto.
  - destruct (resolve_qual t c scope 0); intros [= <-]; eauto.
Qed.

Lemma resolve_all_raises scope rs e :
  resolve_all scope rs = Raise e → ∃ msg, e = OperationalError msg.
Proof.
  induction rs as [|r rs IH]; simpl; [done|].
  destruct (resolve scope r) as [p|e'] eqn:E; simpl.
  - destruct (resolve_all scope rs) as [ps|e'']; simpl; [done|].
    intros [= <-]. by apply IH.
  - intros [= <-]. by eapply resolve_raises.
Qed.

Lemma find_table_raises (db : database) name e :
  find_table db name = Raise e → e = OperationalError ("no such table: " +:+ name).
Proof. unfold find_table. destruct (db !! name); by intros [= <-]. Qed.

Lemma select_scope_raises s (db : database) e :
  select_scope s db = Raise e → ∃ msg, e = OperationalError msg.
Proof.
  unfold select_scope.
  destruct (find_table db (s_from s)) as [t1|e1] eqn:E1; simpl;
    [|intros [= <-]; apply find_table_raises in E1; eauto].
  destruct (s_join s) as [[name on]|]; [|done].
  destruct (find_table db name) as [t2|e2] eqn:E2; simpl;
    [done|intros [= <-]; apply find_table_raises in E2; eauto].
Qed.

(** A SELECT whose ON clause does not resolve over its own FROM tables
    fails whatever the database holds. *)
Lemma exec_select_on_unresolved s params (db : database) :
  (∀ scope, select_scope s db = Ok scope →
            ∃ e, resolve_all scope (on_columns s) = Raise e) →
  ∃ msg, exec_select s params db = Raise (OperationalError msg).
Proof.
  intros Hon. unfold exec_select.
  destruct (select_scope s db) as [scope|e] eqn:E0; simpl;
    [|apply select_scope_raises in E0 as [msg ->]; eauto].
  destruct (resolve_all scope (s_result s)) as [out|e] eqn:E1; simpl;
    [|apply resolve_all_raises in E1 as [msg ->]; eauto].
  destruct (resolve_all scope (option_list (s_where s))) as [wh|e] eqn:E2; simpl;
    [|apply resolve_all_raises in E2 as [msg ->]; eauto].
  destruct (Hon scope eq_refl) as [e E3]. rewrite E3; simpl.
  apply resolve_all_raises in E3 as [msg ->]; eauto.
Qed.

(** The query of [select_by_num] names a table, [students], that its FROM
    clause does not read: it compiles on no database. *)
Lemma select_by_num_query_fails (params : list value) (db : database) :
  ∃ msg,
    exec_select
      (SelectStmt
         [Qual "trains" "train_punkt"; Qual "groups" "group_title";
          Qual "trains" "train_nomer"]
         "trains"
         (Some ("groups",
                (Qual "groups" "train_nomer", Qual "students" "train_nomer")))
         (Some (Qual "groups" "group_title")))
      params db = Raise (OperationalError msg).
Proof.
  apply exec_select_on_unresolved. intros scope. unfold select_scope; simpl.
  destruct (find_table db "trains") as [t1|]; simpl; [|done].
  destruct (find_table db "groups") as [t2|]; simpl; [|done].
  intros [= <-]. unfold on_columns; simpl.
  destruct (column_index "train_nomer" (tbl_columns t2)); simpl; eauto.
Qed.

(** C6 — [select_by_num] returns no subset at all: on every database, for
    every filter value, the call raises an [OperationalError] (its query
    refers to [students.train_nomer] while reading [trains] and [groups])
    and leaves the world as it was.  The claim that it returns exactly the
    records of the given number fails on every input. *)
Theorem select_by_num_always_raises (database_path : string) (nomer : value)
    (w : world) :
  ∃ msg, select_by_num database_path nomer w = (Raise (OperationalError msg), w).
Proof.
  rewrite select_by_num_run.
  destruct (select_by_num_query_fails [nomer] (db_at w database_path)) as [msg ->].
  eauto.
Qed.

(** ** The writer and the readers on a database the program initialised *)

(** Without a table named [trains] the first statement of [add_train]
    does not compile: the call raises before it inserts anything. *)
Lemma add_train_no_trains database_path punkt_nazn nomer time w :
  db_at w database_path !! "trains" = None →
  add_train database_path punkt_nazn nomer time w =
  (Raise (OperationalError "no such table: trains"), w).
Proof.
  intros H. unfold add_train, bind, connect, execute, sql_find_group, lift.
  unfold exec_select, select_scope, find_table; simpl.
  fold (db_at w database_path). by rewrite H.
Qed.

Lemma select_all_no_trains database_path w :
  db_at w database_path !! "trains" = None →
  select_all database_path w =
  (Raise (OperationalError "no such table: trains"), w).
Proof.
  intros H. rewrite select_all_run.
  unfold exec_select, select_scope, find_table; simpl. by rewrite H.
Qed.

Lemma create_db_no_trains database_path w :
  db_at w database_path !! "trains" = None →
  db_at (create_db database_path w).2 database_path !! "trains" = None.
Proof. intros H. rewrite db_at_create_db. by apply with_schema_no_trains. Qed.

(** C2 — on a database that [create_db] initialised (from a file without
    a table named [trains], a new file in particular), [add_train] does
    not add a record: for every destination, number and time the call
    raises [OperationalError: no such table: trains] and the world after
    it is the world before it, so no train row and no group row exists
    that did not exist before.  The schema creates [students] where the
    writer addresses [trains]. *)
Theorem add_train_raises_after_create_db
    (database_path : string) (punkt_nazn nomer time : value) (w : world) :
  db_at w database_path !! "trains" = None →
  add_train database_path punkt_nazn nomer time (create_db database_path w).2 =
  (Raise (OperationalError "no such table: trains"), (create_db database_path w).2).
Proof. intros H. by apply add_train_no_trains, create_db_no_trains. Qed.

Lemma add_train_raises_after_create_db_witness :
  db_at fresh_world "trains.db" !! "trains" = None ∧
  add_train "trains.db" (VStr "Moscow") (VInt 42) (VInt 800)
    (create_db "trains.db" fresh_world).2 =
  (Raise (OperationalError "no such table: trains"),
   (create_db "trains.db" fresh_world).2).
Proof.
  split; [reflexivity|].
  apply (add_train_raises_after_create_db "trains.db"); reflexivity.
Defined.

(** C1 — the round trip from [add] to [display] does not hold on a
    database the program initialised: [add_train] raises and stores
    nothing, and the following [select_all] raises as well, so
    [display_trains] is never reached and no line is printed; the world
    at the end is the world right after [create_db].  The record passed to
    [add_train] appears in no output. *)
Theorem add_then_display_shows_nothing
    (database_path : string) (punkt_nazn nomer time : value) (w : world) :
  db_at w database_path !! "trains" = None →
  let w1 := (create_db database_path w).2 in
  let w2 := (add_train database_path punkt_nazn nomer time w1).2 in
  (trains <- select_all database_path ;; display_trains trains) w2 =
  (Raise (OperationalError "no such table: trains"), w1) ∧
  stdout w1 = stdout w.
Proof.
  intros H w1 w2. subst w1 w2. split; [|by rewrite create_db_run].
  rewrite add_train_no_trains by by apply create_db_no_trains.
  unfold bind, snd.
  by rewrite select_all_no_trains by by apply create_db_no_trains.
Qed.

Lemma add_then_display_shows_nothing_witness :
  db_at fresh_world "trains.db" !! "trains" = None ∧
  (trains <- select_all "trains.db" ;; display_trains trains)
    (add_train "trains.db" (VStr "Moscow") (VInt 42) (VInt 800)
       (create_db "trains.db" fresh_world).2).2 =
  (Raise (OperationalError "no such table: trains"),
   (create_db "trains.db" fresh_world).2).
Proof.
  split; [reflexivity|].
  apply (add_then_display_shows_nothing "trains.db" (VStr "Moscow") (VInt 42)
           (VInt 800) fresh_world).
  reflexivity.
Defined.

(** ** The command dispatcher *)

Lemma find_argument_elem tok spec a :
  find_argument tok spec = Some a → a ∈ spec.
Proof.
  induction spec as [|b spec IH]; simpl; [done|].
  case_bool_decide; [intros [= ->]; left | intros; right; auto].
Qed.

(** An invariant of the namespace that every stored option preserves
    holds at the end of [parse_options]. *)
Lemma parse_options_invariant (P : gmap string value → Prop) spec :
  (∀ a v x ns, a ∈ spec → convert a v = Ok x → P ns → P (<[dest a := x]> ns)) →
  ∀ tokens ns seen ns' seen',
    parse_options spec tokens ns seen = Ok (ns', seen') → P ns → P ns'.
Proof.
  intros Hstep tokens.
  assert (H : (∀ ns seen ns' seen',
                 parse_options spec tokens ns seen = Ok (ns', seen') → P ns → P ns')
              ∧ (∀ t ns seen ns' seen',
                 parse_options spec (t :: tokens) ns seen = Ok (ns', seen') →
                 P ns → P ns')); [|apply H].
  induction tokens as [|v rest [IH1 IH2]].
  - split; simpl; [by intros ???? [= <- <-]|done].
  - split; [apply IH2|].
    intros t ns seen ns' seen'. simpl.
    destruct (find_argument t spec) as [a|] eqn:Ea; [|done].
    destruct (starts_with_dash v); [done|].
    destruct (convert a v) as [x|e] eqn:Ex; simpl; [|done].
    intros Hrec HP. eapply IH1; [exact Hrec|].
    eapply Hstep; eauto using find_argument_elem.
Qed.

Lemma subparser_keeps_namespace w name spec tokens ns seen :
  (name, spec) ∈ subparsers w →
  parse_options spec tokens (defaults spec (<["command" := VStr name]> ∅)) [] =
    Ok (ns, seen) →
  subcommand_namespace name ns.
Proof.
  intros Hin Hparse.
  eapply (parse_options_invariant (subcommand_namespace name)); [|exact Hparse|].
  - intros a v x m Ha Hx (Hc & [path Hdb] & Hp).
    unfold subparsers, add_parser, display_parser, select_parser, file_parser in Hin.
    simpl in Hin. unfold convert in Hx.
    repeat (apply elem_of_cons in Hin as [[= -> ->]|Hin]);
      try (by apply elem_of_nil in Hin);
      simpl in Ha;
      repeat (apply elem_of_cons in Ha as [->|Ha]);
      try (by apply elem_of_nil in Ha);
      simpl in *;
      (split; [|split]);
      rewrite ?lookup_insert_eq, ?lookup_insert_ne by done;
      eauto; by simplify_eq; eauto.
  - unfold subparsers, add_parser, display_parser, select_parser, file_parser in Hin.
    simpl in Hin.
    repeat (apply elem_of_cons in Hin as [[= -> ->]|Hin]);
      try (by apply elem_of_nil in Hin);
      (split; [|split]); unfold defaults; simpl;
      rewrite ?lookup_insert_eq, ?lookup_insert_ne by done; eauto.
Qed.

Lemma find_subparser_elem tok subs name spec :
  find_subparser tok subs = Some (name, spec) → (name, spec) ∈ subs ∧ name = tok.
Proof.
  induction subs as [|[n sp] subs IH]; simpl; [done|].
  destruct (String.eqb n tok) eqn:E.
  - intros [= -> ->]. apply String.eqb_eq in E. split; [left|done].
  - intros H. destruct (IH H). split; [by right|done].
Qed.

Lemma find_subparser_none tok subs :
  tok ∉ map fst subs → find_subparser tok subs = None.
Proof.
  induction subs as [|[n sp] subs IH]; [done|].
  intros Hnot. cbn [find_subparser].
  destruct (String.eqb_spec n tok) as [->|_].
  - exfalso. apply Hnot. left.
  - apply IH. intros Hin. apply Hnot. by right.
Qed.

(** When [parse_args] returns a namespace it has written nothing, and the
    namespace is either the one of the empty command line or the one of a
    sub-command. *)
Lemma parse_args_returns command_line w ns w' :
  parse_args command_line w = (Ok ns, w') →
  w' = w ∧
  ((command_line = [] ∧ ns = <["command" := VNone]> ∅) ∨
   (∃ name, head command_line = Some name ∧ subcommand_namespace name ns)).
Proof.
  destruct command_line as [|tok rest];
    unfold parse_args, raise, parser_error, ret, bind, print; cbv beta iota.
  - intros [= <- <-]. split; [done|by left].
  - case_bool_decide; [done|].
    destruct (starts_with_dash tok); [done|].
    destruct (find_subparser tok (subparsers w)) as [[name spec]|] eqn:Ef; [|done].
    apply find_subparser_elem in Ef as [Hin ->].
    destruct (parse_options _ _ _ _) as [[m seen]|e] eqn:Ep; [|done].
    destruct (missing spec seen); [|done].
    intros [= <- <-]. split; [done|]. right. exists tok. split; [done|].
    by eapply subparser_keeps_namespace.
Qed.

(** [main] up to the dispatch: with a namespace that holds a database
    path, the schema is initialised and the command is looked at. *)
Lemma main_run command_line w ns path command :
  parse_args command_line w = (Ok ns, w) →
  ns !! "db" = Some (VStr path) →
  ns !! "command" = Some command →
  main command_line w =
  (if bool_decide (command = VStr "add") then
     punkt_nazn <- getattr ns "punkt_nazn" ;;
     nomer <- getattr ns "nomer" ;;
     time <- getattr ns "time" ;;
     add_train path punkt_nazn nomer time
   else if bool_decide (command = VStr "display") then
     trains <- select_all path ;;
     display_trains trains
   else if bool_decide (command = VStr "select") then
     select <- getattr ns "select" ;;
     trains <- select_by_num path select ;;
     display_trains trains
   else ret tt) (create_db path w).2.
Proof.
  intros Hparse Hdb Hcommand. unfold main.
  unfold bind at 1. rewrite Hparse.
  unfold bind at 1. unfold getattr at 1. rewrite Hdb. unfold ret at 1.
  unfold bind at 1. unfold Path, ret at 1.
  unfold bind at 1. rewrite create_db_run. simpl.
  unfold bind at 1. unfold getattr at 1. rewrite Hcommand. by unfold ret at 1.
Qed.

(** C3 — the [add] sub-command never reaches [add_train]: whenever the
    parser returns a namespace for [add] (so with valid arguments), [main]
    initialises the schema of the database the namespace names and then
    raises [AttributeError] on [args.punkt_nazn], an attribute the parser
    never sets (it stores the destination under [punkt]).  The world at
    that point is the one [create_db] left: the writer did not run. *)
Theorem add_dispatch_raises_attribute_error
    (command_line : list string) (w : world) (ns : gmap string value) (w' : world) :
  parse_args command_line w = (Ok ns, w') →
  ns !! "command" = Some (VStr "add") →
  ∃ db_path,
    ns !! "db" = Some (VStr db_path) ∧
    main command_line w =
    (Raise (AttributeError "punkt_nazn"), (create_db db_path w).2).
Proof.
  intros Hparse Hadd.
  destruct (parse_args_returns _ _ _ _ Hparse) as [-> [[_ ->]|(name & _ & Hns)]];
    [done|].
  destruct Hns as (Hc & [path Hdb] & Hp).
  exists path. split; [done|].
  rewrite (main_run _ _ _ _ _ Hparse Hdb Hadd).
  rewrite bool_decide_eq_true_2 by done.
  unfold bind, getattr. by rewrite Hp.
Qed.

Lemma add_dispatch_raises_attribute_error_witness :
  ∃ db_path,
    main ["add"; "-p"; "Moscow"; "-n"; "42"; "-t"; "800"] fresh_world =
    (Raise (AttributeError "punkt_nazn"), (create_db db_path fresh_world).2).
Proof.
  edestruct (add_dispatch_raises_attribute_error
               ["add"; "-p"; "Moscow"; "-n"; "42"; "-t"; "800"] fresh_world)
    as (db_path & _ & H); [reflexivity|reflexivity|].
  exists db_path. exact H.
Defined.

(** C4 — [display] on a database the program has just initialised does
    not complete: whenever the parser returns a namespace for [display],
    and the file it names holds no table [trains] (a new or empty file in
    particular), [main] initialises the schema and then ends with
    [OperationalError: no such table: trains], raised by [select_all].
    Nothing is printed on standard output, as the claim says, but the
    process ends with status 1 instead of completing normally. *)
Theorem display_raises_on_initialized_db
    (command_line : list string) (w : world) (ns : gmap string value) (w' : world) :
  parse_args command_line w = (Ok ns, w') →
  ns !! "command" = Some (VStr "display") →
  ∃ db_path,
    ns !! "db" = Some (VStr db_path) ∧
    (db_at w db_path !! "trains" = None →
     main command_line w =
       (Raise (OperationalError "no such table: trains"),
        (create_db db_path w).2) ∧
     stdout (main command_line w).2 = stdout w ∧
     exit_status (main command_line w).1 = Some 1%Z).
Proof.
  intros Hparse Hdisplay.
  destruct (parse_args_returns _ _ _ _ Hparse) as [-> [[_ ->]|(name & _ & Hns)]];
    [done|].
  destruct Hns as (Hc & [path Hdb] & Hp).
  exists path. split; [done|]. intros Hfresh.
  assert (Hmain : main command_line w =
                  (Raise (OperationalError "no such table: trains"),
                   (create_db path w).2)).
  { rewrite (main_run _ _ _ _ _ Hparse Hdb Hdisplay).
    rewrite bool_decide_eq_false_2 by done.
    rewrite bool_decide_eq_true_2 by done.
    unfold bind.
    by rewrite select_all_no_trains by by apply create_db_no_trains. }
  rewrite Hmain. split; [done|]. split; [|done].
  by rewrite create_db_run.
Qed.

Lemma display_raises_on_initialized_db_witness :
  ∃ db_path,
    db_at fresh_world db_path !! "trains" = None ∧
    main ["display"] fresh_world =
      (Raise (OperationalError "no such table: trains"),
       (create_db db_path fresh_world).2) ∧
    stdout (main ["display"] fresh_world).2 = [] ∧
    exit_status (main ["display"] fresh_world).1 = Some 1%Z.
Proof.
  edestruct (display_raises_on_initialized_db ["display"] fresh_world)
    as (db_path & Hdb & H); [reflexivity|reflexivity|].
  injection Hdb as <-.
  exists "/home/user/trains.db". split; [reflexivity|].
  apply H. reflexivity.
Defined.

(** With no sub-command the namespace has no [db] attribute ([--db] is
    declared on the sub-commands only): [main] raises before it touches
    any file. *)
Lemma main_without_subcommand w :
  main [] w = (Raise (AttributeError "db"), w).
Proof. reflexivity. Qed.

(** The claim C5, that a command line with an unknown sub-command ends
    silently with status 0 after schema initialisation, fails on
    [trains frobnicate]: the process ends with status 2. *)
Lemma unknown_subcommand_not_silent :
  ¬ exits_silently_after_init (default_db fresh_world) fresh_world
      (main ["frobnicate"] fresh_world).
Proof. intros [Hstatus _]. vm_compute in Hstatus. discriminate. Qed.

(** C5, amended — a command line whose first token is not an option and
    is none of [add], [display], [select] is rejected by the argument
    parser: [main] ends with [SystemExit(2)] after one diagnostic on the
    error stream; nothing is written on standard output, no schema is
    initialised and no file is touched. *)
Theorem unknown_subcommand_rejected (tok : string) (rest : list string) (w : world) :
  starts_with_dash tok = false →
  tok ∉ ["add"; "display"; "select"] →
  main (tok :: rest) w =
    (Raise (SystemExit 2),
     World (files w) (stdout w) (stderr w ++ [InvalidChoice tok]) (cwd w)) ∧
  exit_status (main (tok :: rest) w).1 = Some 2%Z.
Proof.
  intros Hdash Hnot.
  assert (Hmain : main (tok :: rest) w =
                  (Raise (SystemExit 2),
                   World (files w) (stdout w) (stderr w ++ [InvalidChoice tok])
                         (cwd w))).
  { unfold main, bind at 1, parse_args.
    rewrite bool_decide_eq_false_2.
    2: { intros [= -> _]. done. }
    rewrite Hdash.
    by rewrite (find_subparser_none tok (subparsers w) Hnot). }
  by rewrite Hmain.
Qed.

Lemma unknown_subcommand_rejected_witness :
  main ["frobnicate"] fresh_world =
    (Raise (SystemExit 2),
     World ∅ [] [InvalidChoice "frobnicate"] "/home/user") ∧
  exit_status (main ["frobnicate"] fresh_world).1 = Some 2%Z.
Proof.
  apply (unknown_subcommand_rejected "frobnicate" [] fresh_world).
  - reflexivity.
  - apply (bool_decide_unpack _). vm_compute. exact I.
Defined.

(** ** The shape of the records [select_all] returns *)

Lemma row_dict_returns row w d w' :
  row_dict row w = (Ok d, w') →
  ∃ a b c, row !! 0%nat = Some a ∧ row !! 1%nat = Some b ∧ row !! 2%nat = Some c ∧
           d = <["time" := c]> (<["nomer" := b]> (<["punkt_nazn" := a]> ∅)).
Proof.
  unfold row_dict, bind, item, ret, raise.
  destruct (row !! 0%nat) as [a|]; [|done].
  destruct (row !! 1%nat) as [b|]; [|done].
  destruct (row !! 2%nat) as [c|]; [|done].
  intros [= <- <-]. by exists a, b, c.
Qed.

Lemma for_each_row_dict_returns rows w ds w' :
  for_each rows row_dict w = (Ok ds, w') →
  ∀ d, d ∈ ds →
    ∃ row a b c, row ∈ rows ∧
      row !! 0%nat = Some a ∧ row !! 1%nat = Some b ∧ row !! 2%nat = Some c ∧
      d = <["time" := c]> (<["nomer" := b]> (<["punkt_nazn" := a]> ∅)).
Proof.
  revert w ds w'. induction rows as [|row rows IH]; intros w ds w'.
  - intros [= <- <-] d Hd. by apply elem_of_nil in Hd.
  - cbn [for_each]. unfold bind at 1.
    destruct (row_dict row w) as [[d0|e] w1] eqn:E0; [|done].
    unfold bind at 1.
    destruct (for_each rows row_dict w1) as [[ds0|e] w2] eqn:E1; [|done].
    intros [= <- <-] d Hd.
    apply elem_of_cons in Hd as [->|Hd].
    + apply row_dict_returns in E0 as (a & b & c & ?).
      exists row, a, b, c. split; [left|done].
    + destruct (IH _ _ _ E1 d Hd) as (r & a & b & c & Hr & ?).
      exists r, a, b, c. split; [by right|done].
Qed.

(** The rows a successful SELECT returns are projections of joined rows. *)
Lemma exec_select_returns s params (db : database) rows :
  exec_select s params db = Ok rows →
  ∃ scope out,
    select_scope s db = Ok scope ∧
    resolve_all scope (s_result s) = Ok out ∧
    ∀ row, row ∈ rows →
      ∃ env, env ∈ joined_rows scope ∧ row = map (fetch env) out.
Proof.
  unfold exec_select.
  destruct (select_scope s db) as [scope|] eqn:E0; [|done]. cbn [rbind].
  destruct (resolve_all scope (s_result s)) as [out|] eqn:E1; [|done]. cbn [rbind].
  destruct (resolve_all scope (option_list (s_where s))) as [wh|]; [|done].
  cbn [rbind].
  destruct (resolve_all scope (on_columns s)) as [on|]; [|done]. cbn [rbind].
  intros [= <-]. exists scope, out. split; [done|]. split; [done|].
  intros row Hrow. apply list_elem_of_In, in_map_iff in Hrow as (env & <- & Henv).
  apply list_elem_of_In, list_elem_of_filter in Henv as [_ Henv]. eauto.
Qed.

(** C7 — the dictionaries of [select_all] do not carry the departure
    time.  Whenever the call returns, each dictionary is built from a row
    [r1] of [trains] and a row [r2] of [groups]: [punkt_nazn] is
    [r1.trains_punkt], [nomer] is [r2.group_title], and [time] is
    [r1.train_nomer], the train number; [train_time] is not read.  (And
    [select_by_num] returns nothing on any database, see C6.) *)
Theorem select_all_time_is_train_number
    (database_path : string) (w : world) (trains : list (gmap string value))
    (w' : world) :
  select_all database_path w = (Ok trains, w') →
  ∃ t1 t2 j_punkt j_title j_nomer,
    db_at w database_path !! "trains" = Some t1 ∧
    db_at w database_path !! "groups" = Some t2 ∧
    column_index "trains_punkt" (tbl_columns t1) = Some j_punkt ∧
    column_index "group_title" (tbl_columns t2) = Some j_title ∧
    column_index "train_nomer" (tbl_columns t1) = Some j_nomer ∧
    ∀ d, d ∈ trains →
      ∃ r1 r2, r1 ∈ tbl_rows t1 ∧ r2 ∈ tbl_rows t2 ∧
        d !! "punkt_nazn" = Some (cell r1 j_punkt) ∧
        d !! "nomer" = Some (cell r2 j_title) ∧
        d !! "time" = Some (cell r1 j_nomer).
Proof.
  rewrite select_all_run.
  destruct (exec_select _ _ _) as [rows|] eqn:Eq; [|done]. intros Hdicts.
  apply exec_select_returns in Eq as (scope & out & Hscope & Hout & Hrows).
  revert Hscope. unfold select_scope, find_table. cbn [s_from s_join].
  destruct (db_at w database_path !! "trains") as [t1|]; [|done]. cbn [rbind].
  destruct (db_at w database_path !! "groups") as [t2|]; [|done]. cbn [rbind].
  intros [= <-].
  revert Hout. cbn [s_result resolve_all resolve resolve_qual]. simpl String.eqb.
  cbv beta iota.
  destruct (column_index "trains_punkt" (tbl_columns t1)) as [j0|] eqn:E0; [|done].
  destruct (column_index "group_title" (tbl_columns t2)) as [j1|] eqn:E1; [|done].
  destruct (column_index "train_nomer" (tbl_columns t1)) as [j2|] eqn:E2; [|done].
  simpl. intros [= <-].
  exists t1, t2, j0, j1, j2. do 5 (split; [done|]).
  intros d Hd.
  destruct (for_each_row_dict_returns _ _ _ _ Hdicts d Hd)
    as (row & a & b & c & Hrow & Ha & Hb & Hc & ->).
  destruct (Hrows row Hrow) as (env & Henv & ->).
  cbn [joined_rows] in Henv.
  apply list_elem_of_In, in_flat_map in Henv as (r1 & Hr1 & Henv).
  apply in_map_iff in Henv as (r2 & <- & Hr2).
  exists r1, r2.
  split; [by apply list_elem_of_In|]. split; [by apply list_elem_of_In|].
  revert Ha Hb Hc. unfold fetch, cell. simpl.
  intros [= <-] [= <-] [= <-].
  by rewrite lookup_insert_eq, !lookup_insert_ne, !lookup_insert_eq by done.
Qed.

Lemma select_all_time_is_train_number_witness :
  select_all "old.db" foreign_world =
    (Ok [<["time" := VInt 42]>
           (<["nomer" := VInt 5]> (<["punkt_nazn" := VStr "Moscow"]> ∅))],
     foreign_world) ∧
  ∃ t1 j_nomer,
    db_at foreign_world "old.db" !! "trains" = Some t1 ∧
    column_index "train_nomer" (tbl_columns t1) = Some j_nomer ∧
    tbl_rows t1 = [[VStr "Moscow"; VInt 42; VInt 7; VInt 800]].
Proof.
  split; [by vm_compute|].
  destruct (select_all_time_is_train_number "old.db" foreign_world
              [<["time" := VInt 42]>
                 (<["nomer" := VInt 5]> (<["punkt_nazn" := VStr "Moscow"]> ∅))]
              foreign_world)
    as (t1 & t2 & j0 & j1 & j2 & Ht1 & _ & _ & _ & Hj2 & _); [by vm_compute|].
  exists t1, j2. split; [done|]. split; [done|].
  vm_compute in Ht1. by injection Ht1 as <-.
Defined.

(** ** The table renderer *)

Lemma world_eta w : World (files w) (stdout w) (stderr w) (cwd w) = w.
Proof. by destruct w. Qed.

Lemma get_is_value (train : gmap string value) key :
  train !! key ≠ Some VNone →
  format_value (Some (AlignLeft, 30)) (get train key (VStr "")) =
    Ok (pad AlignLeft 30 (text_of (get train key (VStr "")))) ∧
  format_value (Some (AlignLeft, 20)) (get train key (VStr "")) =
    Ok (pad AlignLeft 20 (text_of (get train key (VStr "")))).
Proof.
  unfold get. destruct (train !! key) as [[|z|s]|]; simpl; done.
Qed.

(** The row format on a record. *)
Lemma format_row idx (train : gmap string value) :
  is_record train →
  format row_template
    [VInt idx; get train "punkt_nazn" (VStr ""); get train "nomer" (VStr "");
     get train "time" (VStr "")] = Ok (data_row idx train).
Proof.
  intros (Hp & Hn & Ht). unfold row_template. cbn [format rbind].
  destruct (get_is_value train "punkt_nazn" Hp) as [-> _].
  destruct (get_is_value train "nomer" Hn) as [_ ->].
  destruct (get_is_value train "time" Ht) as [_ ->].
  reflexivity.
Qed.

(** The loop of [display_trains]: one printed row per record, in order,
    numbered from [start]. *)
Lemma for_enumerate_rows (trains : list (gmap string value)) start w :
  Forall is_record trains →
  for_enumerate trains start (fun idx train =>
    row <- lift (format row_template
                   [VInt idx;
                    get train "punkt_nazn" (VStr "");
                    get train "nomer" (VStr "");
                    get train "time" (VStr "")]) ;;
    print row) w =
  (Ok tt,
   World (files w)
         (stdout w ++ imap (fun i train => data_row (start + Z.of_nat i) train) trains)
         (stderr w) (cwd w)).
Proof.
  intros Hrec. revert start w.
  induction Hrec as [|train trains Htrain _ IH]; intros start w.
  - simpl. unfold ret. by rewrite app_nil_r, world_eta.
  - cbn [for_enumerate]. unfold bind at 1. unfold bind at 1, lift.
    rewrite (format_row _ _ Htrain). unfold print at 1.
    rewrite IH. cbn [files stdout stderr cwd imap].
    rewrite <- app_assoc. cbn [app]. rewrite Z.add_0_r.
    do 4 f_equal. apply imap_ext. intros i x _. simpl. f_equal. lia.
Qed.

(** C9 — the table renderer.  For every sequence of records (whose
    destination, number and time are text or integers), [display_trains]
    returns normally and appends to standard output exactly
    [table_lines trains]: nothing when the sequence is empty; otherwise
    the border, the header row with the four column titles, the border,
    one row per record in input order, numbered from 1, each field padded
    to its column width (4, 30, 20, 20), and the border again.  Nothing
    else in the world changes. *)
Theorem display_trains_renders_table
    (trains : list (gmap string value)) (w : world) :
  Forall is_record trains →
  display_trains trains w =
  (Ok tt, World (files w) (stdout w ++ table_lines trains) (stderr w) (cwd w)).
Proof.
  intros Hrec. destruct trains as [|train trains].
  - simpl. unfold ret. by rewrite app_nil_r, world_eta.
  - unfold display_trains, table_lines.
    change (format line_template _) with (Ok border).
    change (format header_template header_titles) with (Ok header).
    unfold bind at 1. unfold lift at 1.
    unfold bind at 1. unfold print at 1.
    unfold bind at 1. unfold lift at 1.
    unfold bind at 1. unfold print at 1.
    unfold bind at 1. unfold print at 1.
    unfold bind at 1. rewrite (for_enumerate_rows _ _ _ Hrec).
    unfold print. cbn [files stdout stderr cwd].
    rewrite <- !app_assoc. cbn [app]. do 7 f_equal.
    apply imap_ext. intros i x _. simpl. f_equal. lia.
Qed.

Lemma display_trains_renders_table_witness :
  Forall is_record [moscow_42; kyiv_7] ∧
  display_trains [moscow_42; kyiv_7] fresh_world =
  (Ok tt,
   World ∅
     ["+------+--------------------------------+----------------------+----------------------+";
      "|  №   |        Пункт назначиния        |     Номер поезда     |  время отправления   |";
      "+------+--------------------------------+----------------------+----------------------+";
      "|    1 | Moscow                         | 42                   |  800                  |";
      "|    2 | Київ                           | 7                    |  1230                 |";
      "+------+--------------------------------+----------------------+----------------------+"]
     [] "/home/user").
Proof.
  assert (H : Forall is_record [moscow_42; kyiv_7]).
  { repeat constructor; by vm_compute. }
  split; [exact H|].
  exact (display_trains_renders_table [moscow_42; kyiv_7] fresh_world H).
Defined.

(** * Further properties of the program *)

(** ** [create_db] on files that are not new *)

Lemma exec_create_lookup_Some tname cols (db : database) name tb :
  db !! name = Some tb → exec_create tname cols db !! name = Some tb.
Proof.
  intros H. unfold exec_create. destruct (db !! tname) eqn:E; [done|].
  rewrite lookup_insert_ne; [done|]. intros ->. congruence.
Qed.


(** X1 — [create_db] keeps what the file holds: a table that exists before
    the call is there after it with the same columns, the same rows and
    the same row counter.  This includes tables named [groups] or
    [students] whose columns differ from the ones [create_db] declares:
    IF NOT EXISTS leaves them as they are. *)
Theorem create_db_keeps_tables (database_path : string) (w : world)
    (name : string) (tb : table) :
  db_at w database_path !! name = Some tb →
  db_at (create_db database_path w).2 database_path !! name = Some tb.
Proof.
  intros H. rewrite db_at_create_db. unfold with_schema.
  by do 2 apply exec_create_lookup_Some.
Qed.

Lemma create_db_keeps_tables_witness :
  db_at (create_db "old.db" foreign_world).2 "old.db" !! "groups" =
  Some (Table [Column "group_title" "INTEGER" false false;
               Column "trains_nomer" "INTEGER" false false]
              [[VInt 5; VInt 7]] 1).
Proof.
  apply (create_db_keeps_tables "old.db" foreign_world "groups"). reflexivity.
Defined.


(** ** [add_train] when its statements compile *)


Lemma exec_select_raises s params (db : database) e :
  exec_select s params db = Raise e → ∃ msg, e = OperationalError msg.
Proof.
  unfold exec_select.
  destruct (select_scope s db) as [scope|e0] eqn:E0; cbn [rbind];
    [|intros [= <-]; by eapply select_scope_raises].
  destruct (resolve_all scope (s_result s)) as [out|e1] eqn:E1; cbn [rbind];
    [|intros [= <-]; by eapply resolve_all_raises].
  destruct (resolve_all scope (option_list (s_where s))) as [wh|e2] eqn:E2;
    cbn [rbind]; [|intros [= <-]; by eapply resolve_all_raises].
  destruct (resolve_all scope (on_columns s)) as [on|e3] eqn:E3; cbn [rbind];
    [done|intros [= <-]; by eapply resolve_all_raises].
Qed.

Lemma resolve_all_length scope rs out :
  resolve_all scope rs = Ok out → length out = length rs.
Proof.
  revert out. induction rs as [|r rs IH]; intros out; simpl.
  - by intros [= <-].
  - destruct (resolve scope r) as [p|]; simpl; [|done].
    destruct (resolve_all scope rs) as [ps|]; simpl; [|done].
    intros [= <-]. simpl. by rewrite (IH ps).
Qed.

(** Every row of a SELECT has one cell per result column. *)
Lemma exec_select_row_length s params (db : database) rows row :
  exec_select s params db = Ok rows → row ∈ rows →
  length row = length (s_result s).
Proof.
  intros Hsel Hrow.
  apply exec_select_returns in Hsel as (scope & out & _ & Hout & Hrows).
  destruct (Hrows row Hrow) as (env & _ & ->).
  rewrite length_map. by eapply resolve_all_length.
Qed.









(** ** More on the readers *)

Lemma row_dict_three_cells a b c w :
  row_dict [a; b; c] w =
  (Ok (<["time" := c]> (<["nomer" := b]> (<["punkt_nazn" := a]> ∅))), w).
Proof. reflexivity. Qed.

(** Rows of three cells always make their dictionaries; the result does
    not depend on the world. *)
Lemma for_each_row_dict_total rows :
  Forall (fun row : list value => length row = 3%nat) rows →
  ∃ ds, ∀ w0, for_each rows row_dict w0 = (Ok ds, w0).
Proof.
  induction 1 as [|row rows Hlen _ [ds IH]].
  - by exists [].
  - destruct row as [|a [|b [|c [|]]]]; try done.
    eexists. intros w0. cbn [for_each]. unfold bind at 1.
    rewrite row_dict_three_cells. unfold bind at 1. by rewrite IH.
Qed.

Lemma select_all_rows_three_cells (db : database) rows :
  exec_select
    (SelectStmt
       [Qual "trains" "trains_punkt"; Qual "groups" "group_title";
        Qual "trains" "train_nomer"]
       "trains"
       (Some ("groups",
              (Qual "groups" "trains_nomer", Qual "trains" "trains_nomer")))
       None)
    [] db = Ok rows →
  Forall (fun row : list value => length row = 3%nat) rows.
Proof.
  intros Hsel. apply Forall_forall. intros row Hrow.
  by rewrite (exec_select_row_length _ _ _ _ _ Hsel Hrow).
Qed.

(** X5 — the only way [select_all] fails is an [OperationalError] from its
    query: when the call raises, that is the exception; once the query has
    run, building the dictionaries cannot fail (every fetched row has its
    three cells, so [row[0]], [row[1]], [row[2]] are always in range). *)
Theorem select_all_raises_operational_error_only
    (database_path : string) (w : world) (e : exn) (w' : world) :
  select_all database_path w = (Raise e, w') →
  ∃ msg, e = OperationalError msg.
Proof.
  rewrite select_all_run.
  destruct (exec_select _ _ _) as [rows|e0] eqn:Esel.
  - apply select_all_rows_three_cells in Esel.
    destruct (for_each_row_dict_total rows Esel) as [ds ->]. done.
  - intros [= <- <-]. by eapply exec_select_raises.
Qed.

Lemma select_all_raises_operational_error_only_witness :
  select_all "ledger.db" ledger_world =
    (Raise (OperationalError "no such column: trains.trains_punkt"), ledger_world) ∧
  ∃ msg,
    OperationalError "no such column: trains.trains_punkt" = OperationalError msg.
Proof.
  assert (H : select_all "ledger.db" ledger_world =
              (Raise (OperationalError "no such column: trains.trains_punkt"),
               ledger_world)) by by vm_compute.
  split; [exact H|].
  exact (select_all_raises_operational_error_only _ _ _ _ H).
Defined.

(** X6 — every dictionary [select_all] returns has exactly the keys
    [punkt_nazn], [nomer] and [time], and there is one dictionary per
    fetched row, so [display_trains] never falls back on its default
    [''] for a record that comes from [select_all]. *)
Theorem select_all_dictionary_keys
    (database_path : string) (w : world) (trains : list (gmap string value))
    (w' : world) (d : gmap string value) :
  select_all database_path w = (Ok trains, w') →
  d ∈ trains →
  dom d = {["punkt_nazn"; "nomer"; "time"]}.
Proof.
  rewrite select_all_run.
  destruct (exec_select _ _ _) as [rows|]; [|done]. intros Hdicts Hd.
  destruct (for_each_row_dict_returns _ _ _ _ Hdicts d Hd)
    as (row & a & b & c & _ & _ & _ & _ & ->).
  rewrite !dom_insert_L, dom_empty_L. set_solver.
Qed.

Lemma select_all_dictionary_keys_witness :
  dom (<["time" := VInt 42]>
         (<["nomer" := VInt 5]> (<["punkt_nazn" := VStr "Moscow"]> (∅ : gmap string value)))) =
  {["punkt_nazn"; "nomer"; "time"]}.
Proof.
  apply (select_all_dictionary_keys "old.db" foreign_world
           [<["time" := VInt 42]>
              (<["nomer" := VInt 5]> (<["punkt_nazn" := VStr "Moscow"]> ∅))]
           foreign_world).
  - by vm_compute.
  - left.
Defined.

(** A SELECT sees the database through the tables of its FROM clause only. *)
Lemma exec_select_same_scope s params (db db' : database) :
  select_scope s db' = select_scope s db →
  exec_select s params db' = exec_select s params db.
Proof. intros H. unfold exec_select. by rewrite H. Qed.

(** The query of [select_all] gives the same rows once the schema is
    initialised: the tables it reads were there and are left alone. *)
Lemma select_all_query_after_schema (db : database) rows :
  exec_select
    (SelectStmt
       [Qual "trains" "trains_punkt"; Qual "groups" "group_title";
        Qual "trains" "train_nomer"]
       "trains"
       (Some ("groups",
              (Qual "groups" "trains_nomer", Qual "trains" "trains_nomer")))
       None)
    [] db = Ok rows →
  exec_select
    (SelectStmt
       [Qual "trains" "trains_punkt"; Qual "groups" "group_title";
        Qual "trains" "train_nomer"]
       "trains"
       (Some ("groups",
              (Qual "groups" "trains_nomer", Qual "trains" "trains_nomer")))
       None)
    [] (with_schema db) = Ok rows.
Proof.
  intros Esel.
  apply exec_select_returns in Esel as Hret.
  destruct Hret as (scope & out & Hsc & _).
  rewrite (exec_select_same_scope _ _ db (with_schema db)); [done|].
  revert Hsc. unfold select_scope, find_table. cbn [s_from s_join].
  destruct (db !! "trains") as [t1|] eqn:E1; [|done]. cbn [rbind].
  destruct (db !! "groups") as [t2|] eqn:E2; [|done].
  intros _. unfold with_schema.
  by rewrite (exec_create_lookup_Some _ _ _ _ _
                (exec_create_lookup_Some "groups" groups_columns _ _ _ E1)),
             (exec_create_lookup_Some _ _ _ _ _
                (exec_create_lookup_Some "groups" groups_columns _ _ _ E2)).
Qed.

(** X7 — initialising the schema does not change what [select_all]
    returns: if the call returns a list of dictionaries on a file, it
    returns the same list after [create_db] has run on that file (as it
    does at the start of every command). *)
Theorem select_all_unchanged_by_create_db
    (database_path : string) (w : world) (trains : list (gmap string value))
    (w' : world) :
  select_all database_path w = (Ok trains, w') →
  select_all database_path (create_db database_path w).2 =
    (Ok trains, (create_db database_path w).2).
Proof.
  rewrite !select_all_run, db_at_create_db.
  destruct (exec_select _ _ (db_at w database_path)) as [rows|] eqn:Esel; [|done].
  intros Hdicts.
  pose proof (select_all_rows_three_cells _ _ Esel) as Hthree.
  destruct (for_each_row_dict_total rows Hthree) as [ds Hds].
  rewrite Hds in Hdicts. injection Hdicts as <- <-.
  rewrite (select_all_query_after_schema _ _ Esel). apply Hds.
Qed.

Lemma select_all_unchanged_by_create_db_witness :
  select_all "old.db" (create_db "old.db" foreign_world).2 =
    (Ok [<["time" := VInt 42]>
           (<["nomer" := VInt 5]> (<["punkt_nazn" := VStr "Moscow"]> ∅))],
     (create_db "old.db" foreign_world).2).
Proof.
  apply (select_all_unchanged_by_create_db "old.db" foreign_world _ foreign_world).
  by vm_compute.
Defined.

(** ** More on the table renderer *)

(** A dictionary with a [None] field makes the row format fail, whatever
    the other fields are. *)
Lemma format_row_none idx (train : gmap string value) :
  ¬ is_record train →
  format row_template
    [VInt idx; get train "punkt_nazn" (VStr ""); get train "nomer" (VStr "");
     get train "time" (VStr "")] =
  Raise (TypeError "unsupported format string passed to NoneType.__format__").
Proof.
  intros Hnot. unfold is_record in Hnot. unfold row_template, get.
  cbn [format rbind format_value].
  destruct (train !! "punkt_nazn") as [[|z1|s1]|]; cbn [default from_option id];
    cbn [format_value rbind]; try reflexivity;
    (destruct (train !! "nomer") as [[|z2|s2]|]; cbn [default from_option id];
       cbn [format_value rbind]; try reflexivity;
       (destruct (train !! "time") as [[|z3|s3]|]; cbn [default from_option id];
          cbn [format_value rbind]; try reflexivity));
    exfalso; apply Hnot; repeat split; congruence.
Qed.

(** The loop on any dictionaries: it only adds lines to standard output. *)
Lemma for_enumerate_appends (trains : list (gmap string value)) start w :
  ∃ lines,
    (for_enumerate trains start (fun idx train =>
       row <- lift (format row_template
                      [VInt idx;
                       get train "punkt_nazn" (VStr "");
                       get train "nomer" (VStr "");
                       get train "time" (VStr "")]) ;;
       print row) w).2 =
    World (files w) (stdout w ++ lines) (stderr w) (cwd w).
Proof.
  revert start w. induction trains as [|train trains IH]; intros start w.
  - exists []. simpl. by rewrite app_nil_r, world_eta.
  - cbn [for_enumerate]. unfold bind at 1. unfold bind at 1, lift at 1.
    destruct (format row_template _) as [row|e].
    + unfold print at 1.
      destruct (IH (start + 1)%Z
                  (World (files w) (stdout w ++ [row]) (stderr w) (cwd w)))
        as [lines Hlines].
      exists (row :: lines).
      match goal with |- context [for_enumerate ?l ?s ?b ?x] =>
        destruct (for_enumerate l s b x) as [[u|e] w1] end;
        simpl in Hlines; subst w1; simpl; by rewrite <- app_assoc.
    + exists []. simpl. by rewrite app_nil_r, world_eta.
Qed.

(** X8 — [display_trains] only writes lines on standard output: for any
    list of dictionaries, whether the call returns or raises, the output
    after it is the output before it followed by the lines of this call,
    and the files, the error stream and the working directory are as
    before. *)
Theorem display_trains_only_appends
    (trains : list (gmap string value)) (w : world) :
  ∃ lines,
    (display_trains trains w).2 =
    World (files w) (stdout w ++ lines) (stderr w) (cwd w).
Proof.
  destruct trains as [|train trains].
  - exists []. simpl. by rewrite app_nil_r, world_eta.
  - unfold display_trains.
    change (format line_template _) with (Ok border).
    change (format header_template header_titles) with (Ok header).
    unfold bind at 1. unfold lift at 1.
    unfold bind at 1. unfold print at 1.
    unfold bind at 1. unfold lift at 1.
    unfold bind at 1. unfold print at 1.
    unfold bind at 1. unfold print at 1.
    unfold bind at 1.
    match goal with |- context [for_enumerate ?l ?s ?b ?x] =>
      destruct (for_enumerate_appends l s x) as [lines Hlines];
      destruct (for_enumerate l s b x) as [[u|e] w1] end;
      simpl in Hlines; subst w1; cbn [files stdout stderr cwd snd].
    + unfold print. cbn [files stdout stderr cwd snd].
      exists ([border; header; border] ++ lines ++ [border]).
      by rewrite <- !app_assoc.
    + exists ([border; header; border] ++ lines). by rewrite <- !app_assoc.
Qed.

(** The loop up to the first dictionary with a [None] field. *)
Lemma for_enumerate_stops (good : list (gmap string value)) bad rest start w :
  Forall is_record good → ¬ is_record bad →
  for_enumerate (good ++ bad :: rest) start (fun idx train =>
    row <- lift (format row_template
                   [VInt idx;
                    get train "punkt_nazn" (VStr "");
                    get train "nomer" (VStr "");
                    get train "time" (VStr "")]) ;;
    print row) w =
  (Raise (TypeError "unsupported format string passed to NoneType.__format__"),
   World (files w)
         (stdout w ++ imap (fun i train => data_row (start + Z.of_nat i) train) good)
         (stderr w) (cwd w)).
Proof.
  intros Hgood Hbad. revert start w.
  induction Hgood as [|train good Htrain _ IH]; intros start w.
  - cbn [app for_enumerate]. unfold bind at 1. unfold bind at 1, lift.
    rewrite (format_row_none _ _ Hbad). simpl. by rewrite app_nil_r, world_eta.
  - cbn [app for_enumerate]. unfold bind at 1. unfold bind at 1, lift.
    rewrite (format_row _ _ Htrain). unfold print at 1.
    rewrite IH. cbn [files stdout stderr cwd imap].
    rewrite <- app_assoc. cbn [app]. rewrite Z.add_0_r.
    do 4 f_equal. apply imap_ext. intros i x _. simpl. f_equal. lia.
Qed.

(** X9 — a dictionary with a [None] destination, number or time stops
    the table half way: [display_trains] prints the border, the header,
    the border and the rows of the records before that dictionary, then
    raises [TypeError]; neither the later rows nor the closing border are
    printed. *)
Theorem display_trains_stops_at_none
    (good : list (gmap string value)) (bad : gmap string value)
    (rest : list (gmap string value)) (w : world) :
  Forall is_record good → ¬ is_record bad →
  display_trains (good ++ bad :: rest) w =
  (Raise (TypeError "unsupported format string passed to NoneType.__format__"),
   World (files w)
         (stdout w ++ [border; header; border] ++
            imap (fun i train => data_row (Z.of_nat (S i)) train) good)
         (stderr w) (cwd w)).
Proof.
  intros Hgood Hbad. unfold display_trains.
  destruct (good ++ bad :: rest) as [|first others] eqn:E;
    [by destruct good|]. rewrite <- E. clear E first others.
  change (format line_template _) with (Ok border).
  change (format header_template header_titles) with (Ok header).
  unfold bind at 1. unfold lift at 1.
  unfold bind at 1. unfold print at 1.
  unfold bind at 1. unfold lift at 1.
  unfold bind at 1. unfold print at 1.
  unfold bind at 1. unfold print at 1.
  unfold bind at 1. rewrite (for_enumerate_stops _ _ _ _ _ Hgood Hbad).
  cbn [files stdout stderr cwd].
  rewrite <- !app_assoc. cbn [app]. do 6 f_equal.
  apply imap_ext. intros i x _. simpl. f_equal. lia.
Qed.

Lemma display_trains_stops_at_none_witness :
  Forall is_record [moscow_42] ∧ ¬ is_record unnumbered ∧
  display_trains [moscow_42; unnumbered; kyiv_7] fresh_world =
  (Raise (TypeError "unsupported format string passed to NoneType.__format__"),
   World ∅
     ["+------+--------------------------------+----------------------+----------------------+";
      "|  №   |        Пункт назначиния        |     Номер поезда     |  время отправления   |";
      "+------+--------------------------------+----------------------+----------------------+";
      "|    1 | Moscow                         | 42                   |  800                  |"]
     [] "/home/user").
Proof.
  assert (H1 : Forall is_record [moscow_42]).
  { repeat constructor; by vm_compute. }
  assert (H2 : ¬ is_record unnumbered).
  { intros (_ & Hn & _). by apply Hn. }
  split; [exact H1|]. split; [exact H2|].
  exact (display_trains_stops_at_none [moscow_42] unnumbered [kyiv_7]
           fresh_world H1 H2).
Defined.

(** ** Widths of the printed lines *)

Lemma py_len_app s1 s2 : py_len (s1 +:+ s2) = (py_len s1 + py_len s2)%nat.
Proof.
  induction s1 as [|a s1 IH]; [done|].
  simpl. rewrite IH. lia.
Qed.

Lemma py_len_spaces n : py_len (times " " n) = n.
Proof.
  induction n as [|n IH]; [done|].
  change (times " " (S n)) with (" " +:+ times " " n).
  by rewrite py_len_app, IH.
Qed.

(** A padded text is as long as the column is wide, or as long as the
    text when that is longer: nothing is cut. *)
Lemma py_len_pad a width s : py_len (pad a width s) = Nat.max width (py_len s).
Proof.
  unfold pad.
  assert (Hhalf : ((width - py_len s) / 2 ≤ width - py_len s)%nat)
    by (apply Nat.Div0.div_le_upper_bound; lia).
  destruct a; rewrite !py_len_app, !py_len_spaces; lia.
Qed.

Lemma format_value_width a width v text :
  format_value (Some (a, width)) v = Ok text →
  py_len text = Nat.max width (py_len (text_of v)).
Proof.
  destruct v as [|z|s]; cbn [format_value text_of]; [done| |];
    intros [= <-]; apply py_len_pad.
Qed.

(** X10 — the width of a printed data row, counted in characters as
    Python counts them: 14 for the separators plus, for each of the four
    fields, its column width (4, 30, 20, 20) or the length of its text if
    that is longer.  A row is therefore never narrower than 88 characters,
    while the border line is 87 characters wide: the right edge of a row
    never lines up with the border, and long values push it further. *)
Theorem data_row_width
    (idx : Z) (train : gmap string value) (row line : string) :
  format row_template
    [VInt idx; get train "punkt_nazn" (VStr ""); get train "nomer" (VStr "");
     get train "time" (VStr "")] = Ok row →
  format line_template
    [VStr (times "-" 4); VStr (times "-" 30); VStr (times "-" 20);
     VStr (times "-" 20)] = Ok line →
  py_len row =
    (14 + Nat.max 4 (py_len (str_of_int idx))
        + Nat.max 30 (py_len (text_of (get train "punkt_nazn" (VStr ""))))
        + Nat.max 20 (py_len (text_of (get train "nomer" (VStr ""))))
        + Nat.max 20 (py_len (text_of (get train "time" (VStr "")))))%nat ∧
  py_len line = 87%nat ∧
  (py_len line < py_len row)%nat.
Proof.
  intros Hrow Hline.
  assert (Hl : py_len line = 87%nat).
  { revert Hline. by intros [= <-]. }
  assert (Hr : py_len row =
    (14 + Nat.max 4 (py_len (str_of_int idx))
        + Nat.max 30 (py_len (text_of (get train "punkt_nazn" (VStr ""))))
        + Nat.max 20 (py_len (text_of (get train "nomer" (VStr ""))))
        + Nat.max 20 (py_len (text_of (get train "time" (VStr "")))))%nat).
  { revert Hrow. unfold row_template. cbn [format].
    destruct (format_value _ (VInt idx)) as [t0|] eqn:E0; cbn [rbind]; [|done].
    destruct (format_value _ (get train "punkt_nazn" _)) as [t1|] eqn:E1;
      cbn [rbind]; [|done].
    destruct (format_value _ (get train "nomer" _)) as [t2|] eqn:E2;
      cbn [rbind]; [|done].
    destruct (format_value _ (get train "time" _)) as [t3|] eqn:E3;
      cbn [rbind]; [|done].
    intros [= <-].
    apply format_value_width in E0, E1, E2, E3. cbn [text_of] in E0.
    rewrite !py_len_app, E0, E1, E2, E3. cbn [py_len is_continuation].
    simpl. lia. }
  split; [exact Hr|]. split; [exact Hl|]. rewrite Hl, Hr. lia.
Qed.

Lemma data_row_width_witness :
  py_len
    "|    1 | Moscow                         | 42                   |  800                  |"
  = 88%nat ∧
  py_len
    "+------+--------------------------------+----------------------+----------------------+"
  = 87%nat.
Proof.
  destruct (data_row_width 1 moscow_42
              "|    1 | Moscow                         | 42                   |  800                  |"
              "+------+--------------------------------+----------------------+----------------------+")
    as (Hrow & Hline & _); [reflexivity|reflexivity|].
  split; [by vm_compute|exact Hline].
Defined.

(** ** More on the command dispatcher *)

(** A namespace comes from one sub-command parser: the first token names
    it and the rest of the command line is read as its options. *)
Lemma parse_args_subcommand command_line w ns w' :
  parse_args command_line w = (Ok ns, w') → command_line ≠ [] →
  ∃ tok rest spec seen,
    command_line = tok :: rest ∧ (tok, spec) ∈ subparsers w ∧
    parse_options spec rest (defaults spec (<["command" := VStr tok]> ∅)) [] =
      Ok (ns, seen).
Proof.
  destruct command_line as [|tok rest]; [done|]. intros H _. revert H.
  unfold parse_args, raise, parser_error, ret, bind, print; cbv beta iota.
  case_bool_decide; [done|].
  destruct (starts_with_dash tok); [done|].
  destruct (find_subparser tok (subparsers w)) as [[name spec]|] eqn:Ef; [|done].
  apply find_subparser_elem in Ef as [Hin ->].
  destruct (parse_options _ _ _ _) as [[m seen]|e] eqn:Ep; [|done].
  destruct (missing spec seen); [|done].
  intros [= <- <-]. by exists tok, rest, spec, seen.
Qed.

(** [parse_options] never removes an attribute. *)
Lemma parse_options_keeps_attribute spec tokens ns seen ns' seen' name :
  parse_options spec tokens ns seen = Ok (ns', seen') →
  is_Some (ns !! name) → is_Some (ns' !! name).
Proof.
  apply (parse_options_invariant (fun m => is_Some (m !! name))).
  intros a v x m _ _ Hm. apply lookup_insert_is_Some'. by right.
Qed.

(** The parser writes on the output streams at most: it never touches a
    file. *)
Lemma parse_args_files command_line w :
  files (parse_args command_line w).2 = files w ∧
  cwd (parse_args command_line w).2 = cwd w.
Proof.
  destruct command_line as [|tok rest]; [done|].
  unfold parse_args, raise, parser_error, ret, bind, print; cbv beta iota.
  case_bool_decide; [done|].
  destruct (starts_with_dash tok); [done|].
  destruct (find_subparser tok (subparsers w)) as [[name spec]|]; [|done].
  destruct (parse_options _ _ _ _) as [[m seen]|e]; [|done].
  by destruct (missing spec seen).
Qed.

(** X11 — a command line the parser does not accept never reaches the
    database: when [parse_args] raises (status 2 after a diagnostic, or
    status 0 after [--version]), [main] ends with that same exception in
    the world the parser left, in which every file is as it was: no
    database file is created or initialised. *)
Theorem rejected_command_line_touches_no_file
    (command_line : list string) (w : world) (e : exn) (w' : world) :
  parse_args command_line w = (Raise e, w') →
  main command_line w = (Raise e, w') ∧ files w' = files w.
Proof.
  intros Hparse. split.
  - unfold main. unfold bind at 1. by rewrite Hparse.
  - pose proof (parse_args_files command_line w) as [Hfiles _].
    by rewrite Hparse in Hfiles.
Qed.

Lemma rejected_command_line_touches_no_file_witness :
  main ["add"; "-p"; "Moscow"] fresh_world =
    (Raise (SystemExit 2),
     World ∅ [] [MissingRequired ["-t/--time"]] "/home/user") ∧
  files (World ∅ [] [MissingRequired ["-t/--time"]] "/home/user") =
    files fresh_world.
Proof.
  apply (rejected_command_line_touches_no_file ["add"; "-p"; "Moscow"]
           fresh_world).
  by vm_compute.
Defined.

(** The [select] command up to its end: the schema is initialised, then
    [select_by_num] raises. *)
Lemma main_select_run command_line w ns :
  parse_args command_line w = (Ok ns, w) →
  ns !! "command" = Some (VStr "select") →
  ∃ db_path msg,
    ns !! "db" = Some (VStr db_path) ∧
    main command_line w =
      (Raise (OperationalError msg), (create_db db_path w).2).
Proof.
  intros Hparse Hselect.
  destruct (parse_args_returns _ _ _ _ Hparse) as [_ [[_ ->]|(name & _ & Hns)]];
    [done|].
  destruct Hns as (Hc & [path Hdb] & _).
  assert (Hattr : is_Some (ns !! "select")).
  { destruct (parse_args_subcommand _ _ _ _ Hparse)
      as (tok & rest & spec & seen & -> & Hin & Hopts).
    { intros ->. revert Hparse. unfold parse_args, ret. intros [= <-].
      by rewrite lookup_insert_eq in Hselect. }
    pose proof (subparser_keeps_namespace _ _ _ _ _ _ Hin Hopts) as (Hc' & _).
    rewrite Hc' in Hselect. injection Hselect as ->.
    eapply parse_options_keeps_attribute; [exact Hopts|].
    assert (spec = select_parser w) as ->.
    { unfold subparsers in Hin.
      repeat (apply elem_of_cons in Hin as [Heq|Hin]; [by simplify_eq|]).
      by apply elem_of_nil in Hin. }
    unfold defaults; simpl. by rewrite lookup_insert_eq. }
  destruct Hattr as [sel Hsel].
  exists path.
  destruct (select_by_num_query_fails [sel] (db_at (create_db path w).2 path))
    as [msg Hfail].
  exists msg. split; [done|].
  rewrite (main_run _ _ _ _ _ Hparse Hdb Hselect).
  rewrite !bool_decide_eq_false_2 by done.
  rewrite bool_decide_eq_true_2 by done.
  unfold bind at 1, getattr. rewrite Hsel. unfold ret at 1.
  unfold bind at 1. rewrite select_by_num_run, Hfail. done.
Qed.

(** X12 — the [select] command never prints a table: whenever the parser
    returns a namespace for [select], whatever the filter and whatever the
    database holds, [main] initialises the schema and then ends with an
    [OperationalError] raised by [select_by_num] (status 1); standard
    output is as it was. *)
Theorem select_command_always_raises
    (command_line : list string) (w : world) (ns : gmap string value) (w' : world) :
  parse_args command_line w = (Ok ns, w') →
  ns !! "command" = Some (VStr "select") →
  ∃ db_path msg,
    ns !! "db" = Some (VStr db_path) ∧
    main command_line w =
      (Raise (OperationalError msg), (create_db db_path w).2) ∧
    stdout (main command_line w).2 = stdout w ∧
    exit_status (main command_line w).1 = Some 1%Z.
Proof.
  intros Hparse Hselect.
  destruct (parse_args_returns _ _ _ _ Hparse) as [-> _].
  destruct (main_select_run _ _ _ Hparse Hselect) as (path & msg & Hdb & Hmain).
  exists path, msg. split; [done|]. split; [done|].
  rewrite Hmain. split; [|done]. by rewrite create_db_run.
Qed.

Lemma select_command_always_raises_witness :
  ∃ db_path msg,
    main ["select"; "-s"; "42"; "--db"; "old.db"] foreign_world =
      (Raise (OperationalError msg), (create_db db_path foreign_world).2) ∧
    stdout (main ["select"; "-s"; "42"; "--db"; "old.db"] foreign_world).2 = [].
Proof.
  edestruct (select_command_always_raises
               ["select"; "-s"; "42"; "--db"; "old.db"] foreign_world)
    as (db_path & msg & _ & Hmain & Hout & _); [reflexivity|reflexivity|].
  exists db_path, msg. split; [exact Hmain|exact Hout].
Defined.

(** X13 — [main] completes normally only for [display] on a file that
    already holds a table named [trains]: if the call returns, the parser
    returned a namespace whose command is [display] and whose database
    has that table before the call.  [create_db] never creates it (X2), so
    on databases made by this program alone no command completes: every
    run ends with an exception. *)
Theorem main_returns_only_for_display
    (command_line : list string) (w w' : world) :
  main command_line w = (Ok tt, w') →
  ∃ ns db_path,
    parse_args command_line w = (Ok ns, w) ∧
    ns !! "command" = Some (VStr "display") ∧
    ns !! "db" = Some (VStr db_path) ∧
    is_Some (db_at w db_path !! "trains").
Proof.
  intros Hmain.
  destruct (parse_args command_line w) as [[ns|e] w1] eqn:Hparse.
  2: { revert Hmain. unfold main. unfold bind at 1. by rewrite Hparse. }
  destruct (parse_args_returns _ _ _ _ Hparse) as [-> Hcases].
  destruct Hcases as [[-> ->]|(name & _ & Hns)]; [done|].
  destruct (parse_args_subcommand _ _ _ _ Hparse)
    as (tok & rest & spec & seen & -> & Hin & Hopts).
  { intros ->. revert Hparse. unfold parse_args, ret. intros [= <-].
    destruct Hns as (Hc & _). by rewrite lookup_insert_eq in Hc. }
  pose proof (subparser_keeps_namespace _ _ _ _ _ _ Hin Hopts)
    as (Hc & [path Hdb] & Hp).
  exists ns, path.
  assert (Htok : tok = "add" ∨ tok = "display" ∨ tok = "select").
  { unfold subparsers in Hin.
    repeat (apply elem_of_cons in Hin as [Heq|Hin]; [simplify_eq; by auto|]).
    by apply elem_of_nil in Hin. }
  destruct Htok as [->|[->| ->]].
  - exfalso. revert Hmain. rewrite (main_run _ _ _ _ _ Hparse Hdb Hc).
    rewrite bool_decide_eq_true_2 by done.
    unfold bind, getattr. by rewrite Hp.
  - do 3 (split; [done|]).
    destruct (db_at w path !! "trains") as [tb|] eqn:Etrains; [eauto|].
    exfalso. revert Hmain. rewrite (main_run _ _ _ _ _ Hparse Hdb Hc).
    rewrite bool_decide_eq_false_2 by done.
    rewrite bool_decide_eq_true_2 by done.
    unfold bind.
    by rewrite select_all_no_trains by by apply create_db_no_trains.
  - exfalso.
    destruct (main_select_run _ _ _ Hparse Hc) as (p & msg & _ & Hraise).
    by rewrite Hraise in Hmain.
Qed.

Lemma main_returns_only_for_display_witness :
  ∃ ns db_path,
    parse_args ["display"; "--db"; "old.db"] foreign_world = (Ok ns, foreign_world) ∧
    ns !! "command" = Some (VStr "display") ∧
    ns !! "db" = Some (VStr db_path) ∧
    is_Some (db_at foreign_world db_path !! "trains").
Proof.
  apply (main_returns_only_for_display ["display"; "--db"; "old.db"]
           foreign_world
           (main ["display"; "--db"; "old.db"] foreign_world).2).
  by vm_compute.
Defined.

(** X14 — the [display] command prints the table of what
    [select_all] reads on the file as it is before the command: whenever
    the parser returns a namespace for [display] and [select_all] returns
    a list of dictionaries on the database it names, [main] ends as
    [display_trains] does on that list, in the world [create_db] leaves.
    Initialising the schema first neither adds nor hides a record. *)
Theorem display_command_shows_select_all
    (command_line : list string) (w : world) (ns : gmap string value) (w1 : world)
    (db_path : string) (trains : list (gmap string value)) (w2 : world) :
  parse_args command_line w = (Ok ns, w1) →
  ns !! "command" = Some (VStr "display") →
  ns !! "db" = Some (VStr db_path) →
  select_all db_path w = (Ok trains, w2) →
  main command_line w = display_trains trains (create_db db_path w).2.
Proof.
  intros Hparse Hdisplay Hdb Hsel.
  destruct (parse_args_returns _ _ _ _ Hparse) as [-> _].
  rewrite (main_run _ _ _ _ _ Hparse Hdb Hdisplay).
  rewrite bool_decide_eq_false_2 by done.
  rewrite bool_decide_eq_true_2 by done.
  unfold bind at 1. revert Hsel. rewrite !select_all_run, db_at_create_db.
  destruct (exec_select _ _ (db_at w db_path)) as [rows|] eqn:Esel; [|done].
  rewrite (select_all_query_after_schema _ _ Esel).
  pose proof (select_all_rows_three_cells _ _ Esel) as Hthree.
  destruct (for_each_row_dict_total rows Hthree) as [ds Hds].
  rewrite !Hds. by intros [= <- <-].
Qed.

Lemma display_command_shows_select_all_witness :
  main ["display"; "--db"; "old.db"] foreign_world =
    (Ok tt,
     World (files (create_db "old.db" foreign_world).2)
       ["+------+--------------------------------+----------------------+----------------------+";
        "|  №   |        Пункт назначиния        |     Номер поезда     |  время отправления   |";
        "+------+--------------------------------+----------------------+----------------------+";
        "|    1 | Moscow                         | 5                    |  42                   |";
        "+------+--------------------------------+----------------------+----------------------+"]
       [] "/home/user").
Proof.
  etrans.
  - eapply (display_command_shows_select_all _ _ _ _ "old.db"
              [<["time" := VInt 42]>
                 (<["nomer" := VInt 5]> (<["punkt_nazn" := VStr "Moscow"]> ∅))]
              foreign_world);
      [reflexivity|reflexivity|reflexivity|by vm_compute].
  - by vm_compute.
Defined.
